(** * The http_api worker of [app.js]: process model and shutdown, timeout,
      routing and health-probe properties.

    [app.js] is glue between Node's event loop, an Express application, a
    backing store ([__db]) and the cluster module.  The embedding keeps the
    shape of the source: the bodies of [startServer], [runExpressServer],
    [stopGraceFully], [internalHealthCheck] and [Worker.start] are written as
    sequences of statements in a small state-and-exception monad over the
    process state, the registered callbacks are run by a step function of the
    event loop, and a request walks the middleware stack in registration
    order, as Express does. *)

From Stdlib Require Import ZArith List String Bool Lia DecimalString.
From Equations Require Import Equations.
Import ListNotations.

Local Open Scope string_scope.
Local Open Scope Z_scope.
Local Open Scope list_scope.

(* ===================================================================== *)
(** ** JavaScript values the program inspects *)
(* ===================================================================== *)

(** An error object, with the three things line 96 looks at
    ([err instanceof SyntaxError], [err.status], ['body' in err]). *)
Record js_error := mkError {
  err_class   : string;        (* name of the constructor *)
  err_status  : option Z;      (* err.status, when present *)
  err_hasBody : bool;          (* 'body' in err *)
  err_message : string }.

(** The outcome of a promise of a collaborator ([__db.init()],
    [__db.close()], [axios.get(...)]). *)
Inductive outcome :=
| Resolved
| Rejected (e : js_error).

Definition string_of_Z (z : Z) : string := NilZero.string_of_int (Z.to_int z).

(** [s.endsWith(suffix)] *)
Definition endsWith (s suffix : string) : bool :=
  let n := String.length s in
  let m := String.length suffix in
  if (m <=? n)%nat then String.eqb (substring (n - m) m s) suffix else false.

(** Modelled from the spec: the keys of [__constants.RESPONSE_MESSAGES] that
    [app.js] uses ([./config/constants] is not part of the sources); a
    response is classified by the key found in its [type] field. *)
Module RESPONSE_MESSAGES.
Inductive t := SERVER_TIMEOUT | INVALID_REQUEST | NOT_FOUND.

Definition eqb (a b : t) : bool :=
  match a, b with
  | SERVER_TIMEOUT, SERVER_TIMEOUT => true
  | INVALID_REQUEST, INVALID_REQUEST => true
  | NOT_FOUND, NOT_FOUND => true
  | _, _ => false
  end.
End RESPONSE_MESSAGES.

(* ===================================================================== *)
(** ** Requests, responses and the middleware stack *)
(* ===================================================================== *)

(** What the body parsers find in a request. *)
Inductive body :=
| NoBody
| JsonWellFormed
| JsonMalformed
| JsonTooLarge
| UrlencodedOk
| UrlencodedTooLarge.

Record request := mkRequest {
  req_method : string;
  req_path : string;
  req_body : body }.

(** The object literal handed to [res.sendJson]. *)
Record payload := mkPayload {
  type : RESPONSE_MESSAGES.t;
  data_message : option string;      (* data.message *)
  err : option string }.

(** Everything that can be written on a response in this program. *)
Inductive response :=
| SendJson (p : payload)             (* res.sendJson(p), from app.js *)
| HandlerResponse (b : string)       (* written by a business route *)
| CorsPreflight                      (* cors answering an OPTIONS request *)
| FinalHandler (e : option js_error). (* Express' default answer at stack end *)

(** What a business handler does when Express invokes it. *)
Inductive handler_action :=
| Respond (b : string)               (* answers synchronously *)
| RespondNext (b : string)           (* answers, and calls next() all the same *)
| CallNext                           (* next() *)
| CallNextErr (e : js_error)         (* next(err), or a synchronous throw *)
| Async.                             (* returns; will answer later, or never *)

(** Modelled from the spec: the route table installed by
    [require('./routes')(vm.app)] ([./routes] is not part of the sources): a
    list of business routes, each with the paths it matches and an opaque
    handler. *)
Record route := mkRoute {
  route_name : string;
  route_match : request -> bool;
  route_handler : request -> handler_action }.

(** The layers [runExpressServer] pushes on the stack, one constructor per
    [vm.app.use] (and per collaborator that installs layers). *)
Inductive layer :=
| Helmet                (* helmet({noCache: true})         l. 39 *)
| Hsts                  (* helmet.hsts                     l. 46 *)
| Frameguard            (* helmet.frameguard               l. 51 *)
| TimeoutFilter         (* (req, res, next) => ...         l. 58 *)
| BodyParserJson        (* bodyParser.json                 l. 81 *)
| BodyParserUrlencoded  (* bodyParser.urlencoded           l. 86 *)
| JsonErrorHandler      (* (err, req, res, next) => ...    l. 93 *)
| Cors                  (* cors                            l. 105 *)
| AuthInitialize        (* authMiddleware.initialize       l. 110 *)
| Route (r : route)     (* require('./routes')(vm.app)     l. 111 *)
| CatchAll.             (* (req, res, next) => ...         l. 113 *)

(** What happened on one request, in order. *)
Inductive req_effect :=
| Write (r : response)               (* an answer sent to the caller *)
| LostWrite (r : response)           (* an answer ended on a destroyed socket *)
| HeadersSent                        (* a second answer: ERR_HTTP_HEADERS_SENT thrown *)
| RunRoute (name : string)
| OnTimeout                          (* req.on('timeout', ...) *)
| ReqLog (msg : string)
| SocketDestroyed.                   (* socket.destroy() *)

(** The pair [(req, res)] of one request.  [ctx_timedout] is the property
    [req.timedout]: a fresh request has none (it reads as [undefined]), and
    no layer of this stack sets it. *)
Record ctx := mkCtx {
  ctx_req : request;
  ctx_timedout : bool;               (* req.timedout *)
  ctx_pending : bool;                (* a business handler has not answered yet *)
  ctx_timeout_listeners : nat;       (* listeners of 'timeout' on req *)
  ctx_log : list req_effect }.

Definition new_ctx (r : request) : ctx := mkCtx r false false 0 [].

Definition record (e : req_effect) (c : ctx) : ctx :=
  mkCtx (ctx_req c) (ctx_timedout c) (ctx_pending c) (ctx_timeout_listeners c)
        (ctx_log c ++ [e]).

Definition set_pending (b : bool) (c : ctx) : ctx :=
  mkCtx (ctx_req c) (ctx_timedout c) b (ctx_timeout_listeners c) (ctx_log c).

(** [req.on('timeout', listener)] *)
Definition req_on_timeout (c : ctx) : ctx :=
  record OnTimeout
    (mkCtx (ctx_req c) (ctx_timedout c) (ctx_pending c)
           (S (ctx_timeout_listeners c)) (ctx_log c)).

(** The answers the caller received, and the classified ones among them. *)
Fixpoint writes (l : list req_effect) : list response :=
  match l with
  | [] => []
  | Write r :: l' => r :: writes l'
  | _ :: l' => writes l'
  end.

Definition has_type (t : RESPONSE_MESSAGES.t) (r : response) : bool :=
  match r with
  | SendJson p => RESPONSE_MESSAGES.eqb (type p) t
  | _ => false
  end.

Definition count_type (t : RESPONSE_MESSAGES.t) (c : ctx) : nat :=
  List.length (filter (has_type t) (writes (ctx_log c))).

Fixpoint routes_run (l : list req_effect) : list string :=
  match l with
  | [] => []
  | RunRoute n :: l' => n :: routes_run l'
  | _ :: l' => routes_run l'
  end.

(** The routes run and the answers received, in order, leaving out the
    bookkeeping around them. *)
Fixpoint answers_and_routes (l : list req_effect) : list req_effect :=
  match l with
  | [] => []
  | Write r :: l' => Write r :: answers_and_routes l'
  | RunRoute n :: l' => RunRoute n :: answers_and_routes l'
  | _ :: l' => answers_and_routes l'
  end.

(** [res.headersSent]: an answer has been started on this response. *)
Definition headersSent (c : ctx) : bool :=
  existsb (fun e => match e with Write _ | LostWrite _ => true | _ => false end)
          (ctx_log c).

(** The socket of the request has been destroyed. *)
Definition destroyed (c : ctx) : bool :=
  existsb (fun e => match e with SocketDestroyed => true | _ => false end)
          (ctx_log c).

Definition destroy (c : ctx) : ctx := record SocketDestroyed c.

Definition ERR_HTTP_HEADERS_SENT : js_error :=
  mkError "Error" None false "Cannot set headers after they are sent to the client".

(** An answer through Express' response ([res.json], [res.send], and
    [setHeader] followed by [res.end]).  On a response that has been answered
    the call throws ERR_HTTP_HEADERS_SENT and nothing is sent; on a destroyed
    socket the answer is ended but goes nowhere.  The boolean tells whether
    the call returned. *)
Definition res_send (r : response) (c : ctx) : ctx * bool :=
  if headersSent c then (record HeadersSent c, false)
  else if destroyed c then (record (LostWrite r) c, true)
  else (record (Write r) c, true).

(** Modelled from the spec: [res.sendJson] (the code that adds it to the
    response is not part of the sources) sends the object as the JSON answer
    of the request, through Express' [res.json]. *)
Definition sendJson (p : payload) (c : ctx) : ctx * bool := res_send (SendJson p) c.

(** The error body-parser passes to [next] for a JSON body that does not
    parse: a [SyntaxError] with [status] 400 and a [body] property. *)
Definition entity_parse_failed : js_error :=
  mkError "SyntaxError" (Some 400) true "Unexpected token in JSON".

(** The error body-parser passes to [next] for a body above [limit]. *)
Definition entity_too_large : js_error :=
  mkError "PayloadTooLargeError" (Some 413) false "request entity too large".

(** The requests whose body [bodyParser.json] reads, and what it finds. *)
Definition has_json_body (b : body) : bool :=
  match b with
  | JsonWellFormed | JsonMalformed | JsonTooLarge => true
  | _ => false
  end.

Definition bodyParser_json (b : body) : option js_error :=
  match b with
  | JsonMalformed => Some entity_parse_failed
  | JsonTooLarge => Some entity_too_large
  | _ => None
  end.

(** The requests whose body [bodyParser.urlencoded] reads, and what it
    finds. *)
Definition has_urlencoded_body (b : body) : bool :=
  match b with
  | UrlencodedOk | UrlencodedTooLarge => true
  | _ => false
  end.

Definition bodyParser_urlencoded (b : body) : option js_error :=
  match b with
  | UrlencodedTooLarge => Some entity_too_large
  | _ => None
  end.

(** Line 96:
    [err instanceof SyntaxError && err.status === 400 && 'body' in err] *)
Definition is_json_syntax_error (e : js_error) : bool :=
  String.eqb (err_class e) "SyntaxError"
  && match err_status e with Some s => s =? 400 | None => false end
  && err_hasBody e.

(** What Node passes to the listeners of 'timeout' on a request is the
    socket; concatenated to a string it reads as any plain object does. *)
Definition socket_as_string : string := "[object Object]".

(** The four payloads of [app.js]. *)
Definition client_timedout_payload : payload :=
  mkPayload RESPONSE_MESSAGES.SERVER_TIMEOUT
            (Some "request from client timedout") None.

Definition server_timedout_payload : payload :=
  mkPayload RESPONSE_MESSAGES.SERVER_TIMEOUT
            (Some ("server timed out after " ++ socket_as_string ++ " milliseconds")%string)
            None.

Definition invalid_request_payload : payload :=
  mkPayload RESPONSE_MESSAGES.INVALID_REQUEST None (Some "invalid request").

Definition not_found_payload : payload :=
  mkPayload RESPONSE_MESSAGES.NOT_FOUND (Some "not found") (Some "Not Found").

(** Where the walk of a request down the stack stands when the call that
    started it returns: either every layer has returned, or a body parser is
    reading the body; once the body has been received the parser calls
    [next], with the error [e] it found if any, and the walk goes on with
    the layers [rest]. *)
Inductive walk :=
| Returned (c : ctx)
| Reading (c : ctx) (rest : list layer) (e : option js_error).

Definition walk_ctx (w : walk) : ctx :=
  match w with
  | Returned c => c
  | Reading c _ _ => c
  end.

Definition walk_map (f : ctx -> ctx) (w : walk) : walk :=
  match w with
  | Returned c => Returned (f c)
  | Reading c rest e => Reading (f c) rest e
  end.

(** Express' default handler at the end of the stack: it answers 404 or with
    the error; after an answer it leaves a walk without error alone and
    destroys the socket of one with an error. *)
Definition finalhandler (e : option js_error) (c : ctx) : ctx :=
  if headersSent c
  then match e with
       | Some _ => destroy c
       | None => c
       end
  else fst (res_send (FinalHandler e) c).

(** Express' walk down the stack.  [e] is the error [next] was called with:
    with an error only the error-handling layers (four arguments) run,
    without one only the others do; an exception thrown by a layer is passed
    on as the error; at the end of the stack the default handler answers.
    The filter of lines 58-80 calls [next()], or writes the synthetic answer,
    and registers its 'timeout' listener when that call returns, which is
    when a body parser starts reading or when the walk is over. *)
Fixpoint run_stack (stack : list layer) (e : option js_error) (c : ctx) : walk :=
  match stack with
  | [] => Returned (finalhandler e c)
  | l :: rest =>
    match e with
    | Some er =>
      match l with
      | JsonErrorHandler =>
        if is_json_syntax_error er
        then
          match sendJson invalid_request_payload
                  (record (ReqLog "Error while sending request (JSON invalid)") c) with
          | (c', true) => Returned c'
          | (c', false) => run_stack rest (Some ERR_HTTP_HEADERS_SENT) c'
          end
        else run_stack rest None c
      | _ => run_stack rest e c
      end
    | None =>
      match l with
      | Helmet | Hsts | Frameguard | AuthInitialize => run_stack rest None c
      | TimeoutFilter =>
        if negb (ctx_timedout c)
        then walk_map req_on_timeout (run_stack rest None c)
        else
          match sendJson client_timedout_payload c with
          | (c', true) => Returned (req_on_timeout c')
          | (c', false) => run_stack rest (Some ERR_HTTP_HEADERS_SENT) c'
          end
      | BodyParserJson =>
        if has_json_body (req_body (ctx_req c))
        then Reading c rest (bodyParser_json (req_body (ctx_req c)))
        else run_stack rest None c
      | BodyParserUrlencoded =>
        if has_urlencoded_body (req_body (ctx_req c))
        then Reading c rest (bodyParser_urlencoded (req_body (ctx_req c)))
        else run_stack rest None c
      | JsonErrorHandler => run_stack rest None c
      | Cors =>
        if String.eqb (req_method (ctx_req c)) "OPTIONS"
        then
          match res_send CorsPreflight c with
          | (c', true) => Returned c'
          | (c', false) => run_stack rest (Some ERR_HTTP_HEADERS_SENT) c'
          end
        else run_stack rest None c
      | Route r =>
        if route_match r (ctx_req c)
        then
          let c' := record (RunRoute (route_name r)) c in
          match route_handler r (ctx_req c) with
          | Respond b =>
            match res_send (HandlerResponse b) c' with
            | (c'', true) => Returned c''
            | (c'', false) => run_stack rest (Some ERR_HTTP_HEADERS_SENT) c''
            end
          | RespondNext b =>
            match res_send (HandlerResponse b) c' with
            | (c'', true) => run_stack rest None c''
            | (c'', false) => run_stack rest (Some ERR_HTTP_HEADERS_SENT) c''
            end
          | CallNext => run_stack rest None c'
          | CallNextErr er => run_stack rest (Some er) c'
          | Async => Returned (set_pending true c')
          end
        else run_stack rest None c
      | CatchAll =>
        match sendJson not_found_payload c with
        | (c', true) => Returned c'
        | (c', false) => run_stack rest (Some ERR_HTTP_HEADERS_SENT) c'
        end
      end
    end
  end.

(** A request arriving: the walk up to the return of the first call. *)
Definition arrive (stack : list layer) (r : request) : walk :=
  run_stack stack None (new_ctx r).

(** The body of a request has been received: the parser that was reading
    it goes on. *)
Definition body_read (w : walk) : walk :=
  match w with
  | Reading c rest e => run_stack rest e c
  | Returned c => w
  end.

(** The walk carried to its end, every body being received in turn.  Each
    body read leaves fewer layers to walk, so [fuel] above the length of the
    stack is never used up. *)
Fixpoint finish (fuel : nat) (w : walk) : ctx :=
  match w with
  | Returned c => c
  | Reading c rest e =>
    match fuel with
    | O => c
    | S fuel' => finish fuel' (run_stack rest e c)
    end
  end.

(** A request walking the whole stack, its body received without a
    timeout. *)
Definition handle_request (stack : list layer) (r : request) : ctx :=
  finish (List.length stack) (arrive stack r).

(** The listener of lines 69-79, run once; its argument is the socket.  The
    boolean tells whether it returned: on an answered response
    [res.sendJson] throws. *)
Definition timeout_listener (c : ctx) : ctx * bool :=
  sendJson server_timedout_payload
    (record (ReqLog "error :: inside ~function=runExpressServer. haltOnTimedout, server response timedout") c).

(** [req.emit('timeout', socket)]: the registered listeners run in order; a
    listener that throws ends the emit. *)
Fixpoint emit_listeners (n : nat) (c : ctx) : ctx * bool :=
  match n with
  | O => (c, true)
  | S n' =>
    match timeout_listener c with
    | (c', true) => emit_listeners n' c'
    | (c', false) => (c', false)
    end
  end.

Definition emit_timeout (c : ctx) : ctx * bool :=
  emit_listeners (ctx_timeout_listeners c) c.

(** Node's handling of an idle socket ([server.timeout], line 130).
    'timeout' is emitted on the request only while the request has not been
    completely received, that is while its body is being read; the response
    and the server have no 'timeout' listener in this program, so in every
    other case, and when the request has no listener, the socket is
    destroyed.  The error is what a listener threw, if one did: nothing
    catches it. *)
Definition socket_timeout (w : walk) : walk * option js_error :=
  match w with
  | Reading c rest e =>
    match ctx_timeout_listeners c with
    | O => (Reading (destroy c) rest e, None)
    | S _ =>
      match emit_timeout c with
      | (c', true) => (Reading c' rest e, None)
      | (c', false) => (Reading c' rest e, Some ERR_HTTP_HEADERS_SENT)
      end
    end
  | Returned c => (Returned (destroy c), None)
  end.

(** A pending business handler finishing its work and answering.  Nothing in
    [app.js] stands between the handler and the response: what becomes of
    the answer is up to the response, and the error is what the call threw,
    if it did. *)
Definition handler_done (b : string) (w : walk) : walk * option js_error :=
  match w with
  | Returned c =>
    if ctx_pending c
    then match res_send (HandlerResponse b) (set_pending false c) with
         | (c', true) => (Returned c', None)
         | (c', false) => (Returned c', Some ERR_HTTP_HEADERS_SENT)
         end
    else (w, None)
  | Reading _ _ _ => (w, None)
  end.

(* ===================================================================== *)
(** ** The process: state, effects and the monad of the method bodies *)
(* ===================================================================== *)

Inductive signal := SIGINT | SIGTERM.

(** The events of [process] the program listens to (lines 150-164). *)
Inductive proc_event := OnSIGINT | OnSIGTERM | OnUncaughtException.

Definition proc_event_eqb (a b : proc_event) : bool :=
  match a, b with
  | OnSIGINT, OnSIGINT | OnSIGTERM, OnSIGTERM
  | OnUncaughtException, OnUncaughtException => true
  | _, _ => false
  end.

Definition event_of_signal (s : signal) : proc_event :=
  match s with SIGINT => OnSIGINT | SIGTERM => OnSIGTERM end.

(** The calls the process makes on its collaborators, in order. *)
Inductive effect :=
| ConsoleDebug (msg : string)
| ConsoleLog (msg : string)
| ConsoleError (msg : string)
| DbInit                             (* __db.init() *)
| DbClose                            (* __db.close() *)
| ClusterFork                        (* cluster.fork() *)
| AppSet (key value : string)        (* vm.app.set *)
| HttpCreateServer                   (* http.createServer(vm.app) *)
| ServerListen (port : Z)            (* vm.app.server.listen *)
| ServerSetTimeout (ms : Z)          (* vm.app.server.timeout = ... *)
| ServerClose                        (* vm.app.server.close(cb) *)
| ProcessOn (ev : proc_event)        (* process.on *)
| ProcessExit (code : Z)             (* process.exit *)
| SetInterval (ms : Z)
| SetTimeout (ms : Z)
| ClearInterval
| AxiosGet (url : string)
| Require (file : string).

(** Node's [net.Server], as far as [listen] and [close] go: [handle] is the
    listening socket ([_handle]), [close_once] the once-listeners of 'close'.
    Every such listener is the callback of lines 142-147, so it is kept as
    the [error] argument it will be called with. *)
Record server := mkServer {
  handle : bool;
  connections : nat;
  close_once : list (option js_error);
  timeout : option Z }.

Inductive proc_status :=
| Running
| Exited (code : Z)
| Killed (s : signal).

Record process := mkProcess {
  status : proc_status;
  app_stack : list layer;                  (* vm.app, as its stack of layers *)
  app_server : option server;              (* vm.app.server *)
  listeners : list proc_event;             (* process.on registrations *)
  db_init_pending : bool;                  (* the promise of __db.init() *)
  db_close_pending : list (option js_error); (* callbacks of l. 142 suspended at
                                              [await __db.close()], with their [error] *)
  probes_pending : nat;                    (* promises of internalHealthCheck *)
  interval : option Z;                     (* due time of the setInterval timer *)
  poll_timeout : option Z;                 (* due time of the setTimeout timer *)
  requests : list walk;                    (* the requests, by arrival *)
  trace : list effect }.

(** What [config], [constants], [cluster] and the file system hand to the
    program; none of them is part of the sources. *)
Record env := mkEnv {
  clusterNumber : option Z;                (* __config.clusterNumber *)
  port : Z;                                (* __config.port *)
  addBaseUrlPrefix : bool;
  api_prefix : string;
  base_url : string;
  SERVER_TIMEOUT : Z;                      (* __constants.SERVER_TIMEOUT *)
  isMaster : bool;                         (* cluster.isMaster *)
  PWD : string;                            (* process.env.PWD *)
  routes : list route;                     (* what ./routes installs *)
  mongooseSchema : list string }.          (* fs.readdirSync(normalizedPath) *)

(** Line 12: [__config.clusterNumber || 0]. *)
Definition numCPUs (E : env) : Z :=
  match clusterNumber E with
  | Some n => if n =? 0 then 0 else n
  | None => 0
  end.

Definition initial : process :=
  mkProcess Running [] None [] false [] 0 None None [] [].

(** A statement either completes, throws, or ends the process. *)
Inductive result (A : Type) :=
| Ok (a : A)
| Throw (e : js_error)
| Halt.

Arguments Ok {A} a.
Arguments Throw {A} e.
Arguments Halt {A}.

Definition M (A : Type) : Type := process -> result A * process.

Definition ret {A} (a : A) : M A := fun p => (Ok a, p).

Definition bind {A B} (m : M A) (k : A -> M B) : M B :=
  fun p =>
    match m p with
    | (Ok a, p') => k a p'
    | (Throw e, p') => (Throw e, p')
    | (Halt, p') => (Halt, p')
    end.

Definition throw {A} (e : js_error) : M A := fun p => (Throw e, p).

(** [try { m } catch (e) { h e }] *)
Definition try_catch {A} (m : M A) (h : js_error -> M A) : M A :=
  fun p =>
    match m p with
    | (Throw e, p') => h e p'
    | r => r
    end.

Declare Scope js_scope.
Delimit Scope js_scope with js.
Notation "x <- m ;; k" := (bind m (fun x => k))
  (at level 61, m at next level, right associativity) : js_scope.
Notation "m ;; k" := (bind m (fun _ => k))
  (at level 61, right associativity) : js_scope.
Local Open Scope js_scope.

Definition with_trace (f : list effect -> list effect) (p : process) : process :=
  mkProcess (status p) (app_stack p) (app_server p) (listeners p)
            (db_init_pending p) (db_close_pending p) (probes_pending p)
            (interval p) (poll_timeout p) (requests p) (f (trace p)).

Definition with_status (s : proc_status) (p : process) : process :=
  mkProcess s (app_stack p) (app_server p) (listeners p)
            (db_init_pending p) (db_close_pending p) (probes_pending p)
            (interval p) (poll_timeout p) (requests p) (trace p).

Definition with_app (stack : list layer) (s : option server) (p : process) : process :=
  mkProcess (status p) stack s (listeners p)
            (db_init_pending p) (db_close_pending p) (probes_pending p)
            (interval p) (poll_timeout p) (requests p) (trace p).

Definition with_listeners (l : list proc_event) (p : process) : process :=
  mkProcess (status p) (app_stack p) (app_server p) l
            (db_init_pending p) (db_close_pending p) (probes_pending p)
            (interval p) (poll_timeout p) (requests p) (trace p).

Definition with_db (i : bool) (c : list (option js_error)) (p : process) : process :=
  mkProcess (status p) (app_stack p) (app_server p) (listeners p)
            i c (probes_pending p)
            (interval p) (poll_timeout p) (requests p) (trace p).

Definition with_timers (n : nat) (i t : option Z) (p : process) : process :=
  mkProcess (status p) (app_stack p) (app_server p) (listeners p)
            (db_init_pending p) (db_close_pending p) n
            i t (requests p) (trace p).

Definition with_requests (r : list walk) (p : process) : process :=
  mkProcess (status p) (app_stack p) (app_server p) (listeners p)
            (db_init_pending p) (db_close_pending p) (probes_pending p)
            (interval p) (poll_timeout p) r (trace p).

Definition modify (f : process -> process) : M unit := fun p => (Ok tt, f p).

Definition emit (e : effect) : M unit := modify (with_trace (fun t => t ++ [e])).

Definition console_debug (msg : string) : M unit := emit (ConsoleDebug msg).
Definition console_log (msg : string) : M unit := emit (ConsoleLog msg).
Definition console_error (msg : string) : M unit := emit (ConsoleError msg).

(** [process.exit(code)]: nothing after it runs. *)
Definition process_exit (code : Z) : M unit :=
  fun p => (Halt, with_status (Exited code) (with_trace (fun t => t ++ [ProcessExit code]) p)).

(** [process.on(ev, listener)] *)
Definition process_on (ev : proc_event) : M unit :=
  emit (ProcessOn ev) ;;
  modify (fun p => with_listeners (listeners p ++ [ev]) p).

(** [vm.app = express()] *)
Definition express : M unit := modify (with_app [] None).

(** [vm.app.use(l)] *)
Definition app_use (l : layer) : M unit :=
  modify (fun p => with_app (app_stack p ++ [l]) (app_server p) p).

Definition app_set (key value : string) : M unit := emit (AppSet key value).

(** Modelled from the spec: [authMiddleware.initialize(vm.app)]
    ([./middlewares/auth/authentication] is not part of the sources) installs
    the authentication layer of the application. *)
Definition authMiddleware_initialize : M unit := app_use AuthInitialize.

(** Modelled from the spec: [require('./routes')(vm.app)] installs the
    business routes of the route table, in its order. *)
Definition routes_install (rs : list route) : M unit :=
  modify (fun p => with_app (app_stack p ++ map Route rs) (app_server p) p).

Definition cluster_fork : M unit := emit ClusterFork.

(** [vm.app.server = http.createServer(vm.app)] *)
Definition http_createServer : M unit :=
  emit HttpCreateServer ;;
  modify (fun p => with_app (app_stack p) (Some (mkServer false 0 [] None)) p).

(** [vm.app.server]; reading a property of [undefined] throws. *)
Definition TypeError_undefined (prop : string) : js_error :=
  mkError "TypeError" None false
          ("Cannot read properties of undefined (reading '" ++ prop ++ "')")%string.

Definition app_server_or_throw (prop : string) : M server :=
  fun p =>
    match app_server p with
    | Some s => (Ok s, p)
    | None => (Throw (TypeError_undefined prop), p)
    end.

Definition set_server (s : server) : M unit :=
  modify (fun p => with_app (app_stack p) (Some s) p).

Definition server_listen (port : Z) : M unit :=
  s <- app_server_or_throw "listen" ;;
  emit (ServerListen port) ;;
  set_server (mkServer true (connections s) (close_once s) (timeout s)).

Definition server_set_timeout (ms : Z) : M unit :=
  s <- app_server_or_throw "timeout" ;;
  emit (ServerSetTimeout ms) ;;
  set_server (mkServer (handle s) (connections s) (close_once s) (Some ms)).

(** [for (let i = i0; i < n; i++) body(i)] *)
Equations? for_lt (i n : Z) (body : Z -> M unit) : M unit
  by wf (Z.to_nat (n - i)) lt :=
  for_lt i n body with Z_lt_dec i n := {
    | left _ => bind (body i) (fun _ => for_lt (i + 1) n body);
    | right _ => ret tt }.
Proof. lia. Qed.

(** [list.forEach(f)] *)
Fixpoint forEach {A} (l : list A) (f : A -> M unit) : M unit :=
  match l with
  | [] => ret tt
  | x :: l' => f x ;; forEach l' f
  end.

(* ===================================================================== *)
(** ** The methods of [httpApiWorker] and [Worker] *)
(* ===================================================================== *)

(** [await __db.close()] inside the callback of line 142: the call is made
    and the callback is suspended, keeping its [error]. *)
Definition db_close (error : option js_error) : M unit :=
  emit DbClose ;;
  modify (fun p => with_db (db_init_pending p) (db_close_pending p ++ [error]) p).

(** Lines 142-144, up to the [await]. *)
Definition close_callback (error : option js_error) : M unit :=
  console_log "inside ~function=runExpressServerserver is closed" ;;
  db_close error.

(** Lines 145-146, once the promise of [__db.close()] has settled.  On a
    rejection the [await] throws, so neither statement runs. *)
Definition close_callback_resume (error : option js_error) (o : outcome) : M unit :=
  match o with
  | Resolved =>
    console_debug "server is closed" ;;
    process_exit (match error with Some _ => 1 | None => 0 end)
  | Rejected e => throw e
  end.

Definition ERR_SERVER_NOT_RUNNING : js_error :=
  mkError "Error" None false "Server is not running.".

(** Node's [_emitCloseIfDrained]: with no handle and no connection left,
    'close' is emitted and every once-listener runs, in order. *)
Definition emitCloseIfDrained : M unit :=
  s <- app_server_or_throw "close" ;;
  if handle s || negb (Nat.eqb (connections s) 0)
  then ret tt
  else
    set_server (mkServer (handle s) (connections s) [] (timeout s)) ;;
    forEach (close_once s) close_callback.

(** Node's [Server.prototype.close(cb)], with [cb] the callback of line 142:
    a server that is not listening has [cb] called with an error; the handle
    is closed; 'close' is emitted when nothing is left to drain. *)
Definition server_close : M unit :=
  s <- app_server_or_throw "close" ;;
  emit ServerClose ;;
  set_server
    (mkServer false (connections s)
       (close_once s ++ [if handle s then None else Some ERR_SERVER_NOT_RUNNING])
       (timeout s)) ;;
  emitCloseIfDrained.

(** Lines 141-148. *)
Definition stopGraceFully : M unit := server_close.

(** The three listeners of lines 150-164. *)
Definition listener (ev : proc_event) : M unit :=
  match ev with
  | OnSIGINT => console_log "SIGINT received" ;; stopGraceFully
  | OnSIGTERM => console_log "SIGTERM received" ;; stopGraceFully
  | OnUncaughtException =>
    console_log "error :: inside ~function=runExpressServer. ##### SERVER CRASH #####"
  end.

(** Lines 35-171. *)
Definition runExpressServer (E : env) : M unit :=
  console_debug "info inside ~function=runExpressServer." ;;
  express ;;
  app_use Helmet ;;
  app_use Hsts ;;
  app_use Frameguard ;;
  app_set "views" (PWD E ++ "/views")%string ;;
  app_set "view engine" "hbs" ;;
  app_use TimeoutFilter ;;
  app_use BodyParserJson ;;
  app_use BodyParserUrlencoded ;;
  app_use JsonErrorHandler ;;
  app_use Cors ;;
  authMiddleware_initialize ;;
  routes_install (routes E) ;;
  app_use CatchAll ;;
  (if isMaster E && (numCPUs E >? 0)
   then for_lt 0 (numCPUs E) (fun _ => cluster_fork)
   else
     http_createServer ;;
     server_listen (port E) ;;
     server_set_timeout (SERVER_TIMEOUT E)) ;;
  console_log
    ("Application listening on Port :" ++ string_of_Z (port E)
     ++ " Application Test URL : " ++ base_url E
     ++ (if addBaseUrlPrefix E then "/" ++ api_prefix E else "")
     ++ "/api/healthCheck/getping")%string ;;
  process_on OnSIGINT ;;
  process_on OnSIGTERM ;;
  process_on OnUncaughtException ;;
  forEach (mongooseSchema E)
    (fun file => if endsWith file ".js" then emit (Require file) else ret tt).

(** Lines 29-32, the handler given to [.catch]. *)
Definition startServer_catch (error : js_error) : M unit :=
  console_log "Error while server start :: " ;;
  process_exit 1.

(** Lines 22-25: [startServer] up to its [await]; [__db.init()] is called
    and its promise is pending. *)
Definition startServer : M unit :=
  console_debug "inside ~function=startServer. STARTING http_api WORKER" ;;
  emit DbInit ;;
  modify (with_db true []).

(** Lines 26-32, once the promise of [__db.init()] has settled: [.then] runs
    [runExpressServer], [.catch] handles a rejection of either. *)
Definition startServer_settled (E : env) (o : outcome) : M unit :=
  match o with
  | Resolved => try_catch (runExpressServer E) startServer_catch
  | Rejected error => startServer_catch error
  end.

(** Lines 193-194. *)
Definition POLL_INTERVAL : Z := 10000.
Definition pollingDuration : Z := 5 * 60 * 1000.

(** Lines 174-177: [internalHealthCheck] up to its [await]. *)
Definition internalHealthCheck (E : env) : M unit :=
  emit (AxiosGet ("http://localhost:" ++ string_of_Z (port E)
                  ++ "/api/healthCheck/getPing")%string) ;;
  modify (fun p => with_timers (S (probes_pending p)) (interval p) (poll_timeout p) p).

(** Line 179, and the [.catch] of lines 198-200. *)
Definition internalHealthCheck_settled (o : outcome) : M unit :=
  match o with
  | Resolved => console_log "Health check response:"
  | Rejected e => console_error "Health check failed:"
  end.

(** Lines 184-208.  Timer due times are in milliseconds since [start] ran. *)
Definition start (E : env) : M unit :=
  console_debug "   >> Worker PID:" ;;
  startServer ;;
  emit (SetInterval POLL_INTERVAL) ;;
  modify (fun p => with_timers (probes_pending p) (Some POLL_INTERVAL) (poll_timeout p) p) ;;
  emit (SetTimeout pollingDuration) ;;
  modify (fun p => with_timers (probes_pending p) (interval p) (Some pollingDuration) p).

(** Lines 204-207, the callback of the [setTimeout]. *)
Definition stop_polling : M unit :=
  emit ClearInterval ;;
  modify (fun p => with_timers (probes_pending p) None (poll_timeout p) p) ;;
  console_log "Stopped polling after 5 minutes.".

(* ===================================================================== *)
(** ** The event loop *)
(* ===================================================================== *)

Inductive event :=
| EvDbInitSettled (o : outcome)          (* the promise of __db.init() settles *)
| EvSignal (s : signal)
| EvUncaughtException (e : js_error)     (* a fault nobody caught *)
| EvConnOpen                             (* a client connects *)
| EvConnClose                            (* a connection ends *)
| EvRequest (r : request)                (* a request arrives on a connection *)
| EvBodyRead (i : nat)                   (* the body of the i-th request is in *)
| EvSocketTimeout (i : nat)              (* the socket of the i-th request idles *)
| EvReqHandlerDone (i : nat) (b : string) (* its business handler answers *)
| EvDbCloseSettled (k : nat) (o : outcome) (* k-th pending __db.close() settles *)
| EvIntervalTick (t : Z)                 (* the setInterval timer fires at t *)
| EvPollTimeout (t : Z)                  (* the setTimeout timer fires at t *)
| EvProbeSettled (o : outcome).          (* a health check request settles *)

(** [process.emit(ev)]: the listeners registered for [ev], in order. *)
Definition emit_process (ev : proc_event) : M unit :=
  fun p => forEach (filter (proc_event_eqb ev) (listeners p)) listener p.

(** A fault that reaches the process: the 'uncaughtException' listeners run
    when there are some; without any, Node prints the fault and exits with
    code 1. *)
Definition uncaught (e : js_error) (p : process) : process :=
  if existsb (proc_event_eqb OnUncaughtException) (listeners p)
  then snd (emit_process OnUncaughtException p)
  else with_status (Exited 1) p.

(** A callback run from the event loop.  A throw (or, for an async callback,
    the rejection of the promise it returned, which nothing handles) reaches
    the process as an uncaught fault. *)
Definition run_callback (m : M unit) (p : process) : process :=
  match m p with
  | (Throw e, p') => uncaught e p'
  | (_, p') => p'
  end.

Fixpoint update_nth {A} (i : nat) (f : A -> A) (l : list A) : list A :=
  match l, i with
  | [], _ => []
  | x :: l', O => f x :: l'
  | x :: l', S i' => x :: update_nth i' f l'
  end.

Fixpoint remove_nth {A} (i : nat) (l : list A) : list A :=
  match l, i with
  | [], _ => []
  | _ :: l', O => l'
  | x :: l', S i' => x :: remove_nth i' l'
  end.

(** A callback of the [i]-th request has run and left the request as [w]:
    what it threw, if it did, reaches the process as an uncaught fault. *)
Definition on_request (i : nat) (o : walk * option js_error) (p : process) : process :=
  let p' := with_requests (update_nth i (fun _ => fst o) (requests p)) p in
  match snd o with
  | Some e => uncaught e p'
  | None => p'
  end.

Definition set_connections (n : nat) (s : server) : server :=
  mkServer (handle s) n (close_once s) (timeout s).

Definition timer_before (d : Z) (other : option Z) : bool :=
  match other with
  | Some w => d <=? w
  | None => true
  end.

(** One turn of the event loop of a running process.  Timers fire in the
    order of their due times (either order when they are equal), at or after
    the due time; an interval is rearmed from the time it fired. *)
Definition step (E : env) (p : process) (ev : event) : process :=
  match status p with
  | Running =>
    match ev with
    | EvDbInitSettled o =>
      if db_init_pending p
      then run_callback (startServer_settled E o) (with_db false (db_close_pending p) p)
      else p
    | EvSignal s =>
      if existsb (proc_event_eqb (event_of_signal s)) (listeners p)
      then run_callback (emit_process (event_of_signal s)) p
      else with_status (Killed s) p
    | EvUncaughtException e => uncaught e p
    | EvConnOpen =>
      match app_server p with
      | Some s =>
        if handle s
        then with_app (app_stack p) (Some (set_connections (S (connections s)) s)) p
        else p
      | None => p
      end
    | EvConnClose =>
      match app_server p with
      | Some s =>
        match connections s with
        | O => p
        | S n =>
          run_callback emitCloseIfDrained
            (with_app (app_stack p) (Some (set_connections n s)) p)
        end
      | None => p
      end
    | EvRequest r =>
      match app_server p with
      | Some s =>
        match connections s with
        | O => p
        | S _ => with_requests (requests p ++ [arrive (app_stack p) r]) p
        end
      | None => p
      end
    | EvBodyRead i =>
      with_requests (update_nth i body_read (requests p)) p
    | EvSocketTimeout i =>
      match nth_error (requests p) i with
      | Some w => on_request i (socket_timeout w) p
      | None => p
      end
    | EvReqHandlerDone i b =>
      match nth_error (requests p) i with
      | Some w => on_request i (handler_done b w) p
      | None => p
      end
    | EvDbCloseSettled k o =>
      match nth_error (db_close_pending p) k with
      | Some error =>
        run_callback (close_callback_resume error o)
          (with_db (db_init_pending p) (remove_nth k (db_close_pending p)) p)
      | None => p
      end
    | EvIntervalTick t =>
      match interval p with
      | Some d =>
        if (d <=? t) && timer_before d (poll_timeout p)
        then run_callback (internalHealthCheck E)
               (with_timers (probes_pending p) (Some (t + POLL_INTERVAL)) (poll_timeout p) p)
        else p
      | None => p
      end
    | EvPollTimeout t =>
      match poll_timeout p with
      | Some w =>
        if (w <=? t) && timer_before w (interval p)
        then run_callback stop_polling
               (with_timers (probes_pending p) (interval p) None p)
        else p
      | None => p
      end
    | EvProbeSettled o =>
      match probes_pending p with
      | O => p
      | S n =>
        run_callback (internalHealthCheck_settled o)
          (with_timers n (interval p) (poll_timeout p) p)
      end
    end
  | _ => p
  end.

Definition run (E : env) (evs : list event) (p : process) : process :=
  fold_left (step E) evs p.

(** [module.exports.worker.start()]: the process after the synchronous part
    of [start]. *)
Definition started (E : env) : process := snd (start E initial).

(** Counting in a trace. *)
Definition count (f : effect -> bool) (t : list effect) : nat :=
  List.length (filter f t).

Definition is_fork (e : effect) : bool :=
  match e with ClusterFork => true | _ => false end.
Definition is_createServer (e : effect) : bool :=
  match e with HttpCreateServer => true | _ => false end.
Definition is_listen (e : effect) : bool :=
  match e with ServerListen _ => true | _ => false end.
Definition is_dbInit (e : effect) : bool :=
  match e with DbInit => true | _ => false end.
Definition is_dbClose (e : effect) : bool :=
  match e with DbClose => true | _ => false end.
Definition is_serverClose (e : effect) : bool :=
  match e with ServerClose => true | _ => false end.
Definition is_exit (e : effect) : bool :=
  match e with ProcessExit _ => true | _ => false end.
Definition is_probe (e : effect) : bool :=
  match e with AxiosGet _ => true | _ => false end.

(* ===================================================================== *)
(** ** What [runExpressServer] leaves behind *)
(* ===================================================================== *)

(** The layers registered before the route table (lines 39-110). *)
Definition before_routes : list layer :=
  [Helmet; Hsts; Frameguard; TimeoutFilter; BodyParserJson;
   BodyParserUrlencoded; JsonErrorHandler; Cors; AuthInitialize].

(** The route table and, after it, the catch-all of line 113. *)
Definition routing (E : env) : list layer :=
  map Route (routes E) ++ [CatchAll].

Definition the_stack (E : env) : list layer := before_routes ++ routing E.

(** The test of line 123. *)
Definition forks (E : env) : bool := isMaster E && (numCPUs E >? 0).

Definition the_server (E : env) : option server :=
  if forks E then None else Some (mkServer true 0 [] (Some (SERVER_TIMEOUT E))).

Definition the_listeners : list proc_event :=
  [OnSIGINT; OnSIGTERM; OnUncaughtException].

Definition start_trace : list effect :=
  [ConsoleDebug "   >> Worker PID:";
   ConsoleDebug "inside ~function=startServer. STARTING http_api WORKER";
   DbInit; SetInterval POLL_INTERVAL; SetTimeout pollingDuration].

Definition boot_trace (E : env) : list effect :=
  [ConsoleDebug "info inside ~function=runExpressServer.";
   AppSet "views" (PWD E ++ "/views")%string;
   AppSet "view engine" "hbs"]
  ++ (if forks E
      then repeat ClusterFork (Z.to_nat (numCPUs E))
      else [HttpCreateServer; ServerListen (port E);
            ServerSetTimeout (SERVER_TIMEOUT E)])
  ++ [ConsoleLog
        ("Application listening on Port :" ++ string_of_Z (port E)
         ++ " Application Test URL : " ++ base_url E
         ++ (if addBaseUrlPrefix E then "/" ++ api_prefix E else "")
         ++ "/api/healthCheck/getping")%string;
      ProcessOn OnSIGINT; ProcessOn OnSIGTERM; ProcessOn OnUncaughtException]
  ++ map Require (filter (fun file => endsWith file ".js") (mongooseSchema E)).

(** The process once [__db.init()] has resolved and [runExpressServer] has
    run. *)
Definition booted (E : env) : process :=
  step E (started E) (EvDbInitSettled Resolved).

Definition crash_log : effect :=
  ConsoleLog "error :: inside ~function=runExpressServer. ##### SERVER CRASH #####".

Definition signal_log (s : signal) : effect :=
  match s with
  | SIGINT => ConsoleLog "SIGINT received"
  | SIGTERM => ConsoleLog "SIGTERM received"
  end.

Definition close_log : effect :=
  ConsoleLog "inside ~function=runExpressServerserver is closed".

(* ===================================================================== *)
(** ** Observations that a statement leaves alone *)
(* ===================================================================== *)

(** [keeps obs m]: running [m] does not change what [obs] sees of the
    process, whether [m] completes, throws or exits. *)
Definition keeps {X A : Type} (obs : process -> X) (m : M A) : Prop :=
  forall p, obs (snd (m p)) = obs p.

(** The timers and the health checks issued so far. *)
Definition obs_timers (p : process) : option Z * option Z * list effect :=
  (interval p, poll_timeout p, filter is_probe (trace p)).

(** The effects only [startServer] and [runExpressServer] have. *)
Definition is_boot (e : effect) : bool :=
  is_fork e || is_createServer e || is_listen e || is_dbInit e.

(** What is settled once [runExpressServer] has run. *)
Definition obs_boot (p : process)
  : bool * list proc_event * list layer * list effect :=
  (db_init_pending p, listeners p, app_stack p, filter is_boot (trace p)).

Definition is_timer_event (ev : event) : bool :=
  match ev with
  | EvIntervalTick _ | EvPollTimeout _ => true
  | _ => false
  end.

Definition is_signal_event (ev : event) : bool :=
  match ev with
  | EvSignal _ => true
  | _ => false
  end.

Definition is_db_close_settled (ev : event) : bool :=
  match ev with
  | EvDbCloseSettled _ _ => true
  | _ => false
  end.

(** The listener has stopped accepting and no connection is left. *)
Definition drained (p : process) : bool :=
  match app_server p with
  | Some s => negb (handle s) && Nat.eqb (connections s) 0
  | None => false
  end.

(** Shutdown callbacks registered on 'close' and not run yet. *)
Definition close_callbacks_waiting (p : process) : nat :=
  match app_server p with
  | Some s => List.length (close_once s)
  | None => 0%nat
  end.

(** [ceil(a / b)] for a positive [b]. *)
Definition ceil_div (a b : Z) : Z := (a + b - 1) / b.

(* ===================================================================== *)
(** ** Invariants of the timers and of shutdown *)
(* ===================================================================== *)

(** What the timers and the count of health checks satisfy at every moment:
    the checks issued fit in the window, and while the interval is armed the
    window timer is too and the next tick is not due before the checks
    issued so far, plus one, have had their interval each. *)
Definition timers_ok (o : option Z * option Z * list effect) : Prop :=
  let '(i, w, probes) := o in
  Z.of_nat (List.length probes) * POLL_INTERVAL <= pollingDuration
  /\ match i with
     | Some d =>
       w = Some pollingDuration
       /\ (Z.of_nat (List.length probes) + 1) * POLL_INTERVAL <= d
     | None => True
     end.

(** Termination signals among the events of a run. *)
Definition signals_in (es : list event) : nat :=
  List.length (filter is_signal_event es).

(** The bookkeeping of shutdown in a serving process that has received [n]
    termination signals: [server.close] was called [n] times, every
    callback it registered has either run (and called [__db.close()]) or is
    still waiting for 'close', and none waits once the server has drained. *)
Definition shutdown_inv (n : nat) (p : process) : Prop :=
  status p = Running
  /\ listeners p = the_listeners
  /\ db_init_pending p = false
  /\ exists sv,
       app_server p = Some sv
       /\ count is_serverClose (trace p) = n
       /\ (count is_dbClose (trace p) + List.length (close_once sv))%nat = n
       /\ (handle sv = false -> connections sv = 0%nat -> close_once sv = []).

(* ===================================================================== *)
(** ** Further observations *)
(* ===================================================================== *)

Definition is_require (e : effect) : bool :=
  match e with Require _ => true | _ => false end.

(** Anything that belongs to shutdown. *)
Definition is_shutdown (e : effect) : bool :=
  is_serverClose e || is_dbClose e || is_exit e.

(** Nothing has been answered on the request and its socket is open. *)
Definition live (c : ctx) : Prop := headersSent c = false /\ destroyed c = false.

(** The log of [c'] continues that of [c]. *)
Definition grows (c c' : ctx) : Prop := exists l, ctx_log c' = ctx_log c ++ l.

(** The layers that read the body of the request. *)
Definition reads_body (l : layer) : bool :=
  match l with
  | BodyParserJson | BodyParserUrlencoded => true
  | _ => false
  end.

(** The stack from the CORS layer of line 105 on, and the walk down it. *)
Definition from_cors_on (E : env) : list layer :=
  Cors :: AuthInitialize :: routing E.

Definition from_cors (E : env) (c : ctx) : walk := run_stack (from_cors_on E) None c.

(** What the callers of the requests of a process have received, and the
    logs of these requests. *)
Definition answers (p : process) : list (list response) :=
  map (fun w => writes (ctx_log (walk_ctx w))) (requests p).

Definition request_logs (p : process) : list (list req_effect) :=
  map (fun w => ctx_log (walk_ctx w)) (requests p).

(** The routes registered after the first one that matches [r]. *)
Fixpoint rest_after (r : request) (rs : list route) : list route :=
  match rs with
  | [] => []
  | rt :: rs' => if route_match rt r then rs' else rest_after r rs'
  end.

(** A serving process nobody has asked to stop: it listens, no shutdown
    callback is registered or suspended, and nothing of shutdown has
    happened. *)
Definition quiet (p : process) : Prop :=
  status p = Running
  /\ listeners p = the_listeners
  /\ db_init_pending p = false
  /\ db_close_pending p = []
  /\ (exists sv, app_server p = Some sv /\ handle sv = true /\ close_once sv = [])
  /\ count is_shutdown (trace p) = 0%nat.

(* ===================================================================== *)
(** ** Sample configurations *)
(* ===================================================================== *)

(** A route that answers at once and one that answers late. *)
Definition ping_route : route :=
  mkRoute "getping"
          (fun r => String.eqb (req_path r) "/api/healthCheck/getping")
          (fun _ => Respond "pong").

Definition slow_route : route :=
  mkRoute "slow" (fun r => String.eqb (req_path r) "/slow") (fun _ => Async).

(** Worker count 0, port 8080, timeout 30 s. *)
Definition single_env : env :=
  mkEnv (Some 0) 8080 false "api" "http://localhost:8080" 30000 true "/srv/app"
        [ping_route; slow_route] ["user.js"; "README.md"].

(** The original process of a pool of four workers. *)
Definition cluster_env : env :=
  mkEnv (Some 4) 8080 false "api" "http://localhost:8080" 30000 true "/srv/app"
        [ping_route; slow_route] ["user.js"; "README.md"].

(** A route that hands over with [next()], and a configuration with it. *)
Definition passing_route : route :=
  mkRoute "audit" (fun r => String.eqb (req_path r) "/audit") (fun _ => CallNext).

Definition passing_env : env :=
  mkEnv (Some 0) 8080 false "api" "http://localhost:8080" 30000 true "/srv/app"
        [passing_route; ping_route] [].

(** A route that answers and calls [next()] all the same, and a
    configuration with it. *)
Definition echo_route : route :=
  mkRoute "echo" (fun r => String.eqb (req_path r) "/echo")
          (fun _ => RespondNext "echo").

Definition echo_env : env :=
  mkEnv (Some 0) 8080 false "api" "http://localhost:8080" 30000 true "/srv/app"
        [echo_route; ping_route] [].

(** A route that fails, and a configuration with it. *)
Definition failing_route : route :=
  mkRoute "broken" (fun r => String.eqb (req_path r) "/broken")
          (fun _ => CallNextErr entity_parse_failed).

Definition broken_env : env :=
  mkEnv (Some 0) 8080 false "api" "http://localhost:8080" 30000 true "/srv/app"
        [ping_route; failing_route] [].

(** A configuration without [clusterNumber]. *)
Definition unconfigured_env : env :=
  mkEnv None 8080 false "api" "http://localhost:8080" 30000 true "/srv/app"
        [ping_route] [].

Definition store_down : js_error :=
  mkError "MongoNetworkError" None false "connection refused".

Arguments string_of_Z : simpl never.

(* ===================================================================== *)
(** ** Lemmas on the method bodies *)
(* ===================================================================== *)

Lemma count_app f t l : count f (t ++ l) = (count f t + count f l)%nat.
Proof. unfold count. rewrite filter_app, length_app. reflexivity. Qed.

Lemma count_repeat f (e : effect) n :
  count f (repeat e n) = if f e then n else 0%nat.
Proof.
  unfold count. induction n as [|n IH]; simpl.
  - destruct (f e); reflexivity.
  - destruct (f e); simpl; [rewrite IH|]; auto.
Qed.

Lemma for_lt_fork (k : nat) : forall i n p, Z.to_nat (n - i) = k ->
  for_lt i n (fun _ => cluster_fork) p =
  (Ok tt, mkProcess (status p) (app_stack p) (app_server p) (listeners p)
            (db_init_pending p) (db_close_pending p) (probes_pending p)
            (interval p) (poll_timeout p) (requests p)
            (trace p ++ repeat ClusterFork k)).
Proof.
  induction k as [|k IH]; intros i n p Hk; simp for_lt;
    destruct (Z_lt_dec i n) as [Hlt|Hge]; simpl; try lia.
  - rewrite app_nil_r. destruct p; reflexivity.
  - unfold bind, cluster_fork, emit, modify.
    rewrite (IH (i + 1) n) by lia. simpl. rewrite <- app_assoc. reflexivity.
Qed.

Lemma for_lt_fork0 n p :
  for_lt 0 n (fun _ => cluster_fork) p =
  (Ok tt, mkProcess (status p) (app_stack p) (app_server p) (listeners p)
            (db_init_pending p) (db_close_pending p) (probes_pending p)
            (interval p) (poll_timeout p) (requests p)
            (trace p ++ repeat ClusterFork (Z.to_nat n))).
Proof. apply for_lt_fork. f_equal. lia. Qed.

Lemma forEach_require files : forall p,
  forEach files
    (fun file => if endsWith file ".js" then emit (Require file) else ret tt) p =
  (Ok tt, mkProcess (status p) (app_stack p) (app_server p) (listeners p)
            (db_init_pending p) (db_close_pending p) (probes_pending p)
            (interval p) (poll_timeout p) (requests p)
            (trace p ++ map Require (filter (fun file => endsWith file ".js") files))).
Proof.
  induction files as [|f fs IH]; intros p; simpl.
  - rewrite app_nil_r. destruct p; reflexivity.
  - unfold bind. destruct (endsWith f ".js"); simpl; rewrite IH; simpl.
    + rewrite <- app_assoc. reflexivity.
    + reflexivity.
Qed.

Ltac js_eval :=
  cbv beta iota delta
    [bind ret throw try_catch modify emit console_debug console_log console_error
     process_exit process_on express app_use app_set authMiddleware_initialize
     routes_install cluster_fork http_createServer app_server_or_throw set_server
     server_listen server_set_timeout db_close close_callback
     with_trace with_status with_app with_listeners with_db with_timers
     with_requests
     status app_stack app_server listeners db_init_pending db_close_pending
     probes_pending interval poll_timeout requests trace
     handle connections close_once timeout fst snd].

Lemma bind_ok {A B} (m : M A) (k : A -> M B) p a p' :
  m p = (Ok a, p') -> bind m k p = k a p'.
Proof. unfold bind. intros ->. reflexivity. Qed.

Lemma runExpressServer_spec E p :
  runExpressServer E p =
  (Ok tt, mkProcess (status p) (the_stack E) (the_server E)
            (listeners p ++ the_listeners)
            (db_init_pending p) (db_close_pending p) (probes_pending p)
            (interval p) (poll_timeout p) (requests p)
            (trace p ++ boot_trace E)).
Proof.
  unfold runExpressServer, the_server, boot_trace.
  fold (forks E). destruct p. destruct (forks E).
  - js_eval.
    rewrite for_lt_fork0.
    js_eval.
    rewrite forEach_require.
    js_eval. rewrite <- !app_assoc. reflexivity.
  - js_eval.
    rewrite forEach_require.
    js_eval. rewrite <- !app_assoc. reflexivity.
Qed.

Lemma started_eq E :
  started E =
  mkProcess Running [] None [] true [] 0 (Some POLL_INTERVAL) (Some pollingDuration)
            [] start_trace.
Proof. reflexivity. Qed.

Lemma booted_eq E :
  booted E =
  mkProcess Running (the_stack E) (the_server E) the_listeners false [] 0
            (Some POLL_INTERVAL) (Some pollingDuration) []
            (start_trace ++ boot_trace E).
Proof.
  unfold booted. rewrite started_eq.
  unfold step, run_callback, startServer_settled, try_catch.
  cbn [status db_init_pending with_db db_close_pending app_stack app_server listeners
       probes_pending interval poll_timeout requests trace].
  rewrite runExpressServer_spec. reflexivity.
Qed.

(* ===================================================================== *)
(** ** Requests walking the stack *)
(* ===================================================================== *)

Lemma writes_app l1 l2 : writes (l1 ++ l2) = writes l1 ++ writes l2.
Proof.
  induction l1 as [|x l1 IH]; simpl; [reflexivity|].
  destruct x; simpl; rewrite IH; reflexivity.
Qed.

Lemma routes_run_app l1 l2 : routes_run (l1 ++ l2) = routes_run l1 ++ routes_run l2.
Proof.
  induction l1 as [|x l1 IH]; simpl; [reflexivity|].
  destruct x; simpl; rewrite IH; reflexivity.
Qed.

Lemma answers_and_routes_app l1 l2 :
  answers_and_routes (l1 ++ l2) = answers_and_routes l1 ++ answers_and_routes l2.
Proof.
  induction l1 as [|x l1 IH]; simpl; [reflexivity|].
  destruct x; simpl; rewrite IH; reflexivity.
Qed.

Lemma existsb_snoc {A} (f : A -> bool) l x : existsb f (l ++ [x]) = existsb f l || f x.
Proof. rewrite existsb_app. simpl. rewrite orb_false_r. reflexivity. Qed.

(** Contexts nothing has been answered on. *)
Lemma live_new r : live (new_ctx r).
Proof. split; reflexivity. Qed.

Lemma live_record e c :
  live c ->
  match e with Write _ | LostWrite _ | SocketDestroyed => False | _ => True end ->
  live (record e c).
Proof.
  unfold live, headersSent, destroyed, record. cbn [ctx_log]. intros [H1 H2] He.
  rewrite !existsb_snoc, H1, H2. destruct e; try contradiction; split; reflexivity.
Qed.

Lemma live_on_timeout c : live c -> live (req_on_timeout c).
Proof.
  unfold live, headersSent, destroyed, req_on_timeout, record. cbn [ctx_log].
  intros [H1 H2]. rewrite !existsb_snoc, H1, H2. split; reflexivity.
Qed.

Lemma res_send_live r c : live c -> res_send r c = (record (Write r) c, true).
Proof. intros [H1 H2]. unfold res_send. rewrite H1, H2. reflexivity. Qed.

Lemma walk_ctx_map f w : walk_ctx (walk_map f w) = f (walk_ctx w).
Proof. destruct w; reflexivity. Qed.



Lemma grows_record e c : grows c (record e c).
Proof. exists [e]. reflexivity. Qed.

Lemma grows_res_send r c : grows c (fst (res_send r c)).
Proof.
  unfold res_send. destruct (headersSent c); [|destruct (destroyed c)];
    apply grows_record.
Qed.




Ltac walk_cases :=
  repeat match goal with
  | |- context [match res_send ?r ?c with _ => _ end] =>
    let H := fresh "Hs" in
    pose proof (grows_res_send r c) as H;
    destruct (res_send r c) as [? []]; cbn [fst] in H
  | |- context [match sendJson ?r ?c with _ => _ end] => unfold sendJson
  | |- context [match route_handler ?r ?c with _ => _ end] =>
    destruct (route_handler r c)
  | |- context [if ?b then _ else _] => destruct b
  end.


(** Below the body parsers every layer returns at once. *)
Lemma run_stack_returns stack :
  forallb (fun l => negb (reads_body l)) stack = true ->
  forall e c, run_stack stack e c = Returned (walk_ctx (run_stack stack e c)).
Proof.
  induction stack as [|l stack IH]; intros Hs e c; cbn [run_stack]; [reflexivity|].
  simpl in Hs. apply andb_prop in Hs as [Hl Hs]. specialize (IH Hs).
  destruct e as [er|]; destruct l; try discriminate Hl; walk_cases;
    try reflexivity; try apply IH; rewrite IH; reflexivity.
Qed.

Lemma routing_reads_no_body E : forallb (fun l => negb (reads_body l)) (routing E) = true.
Proof.
  unfold routing. rewrite forallb_app. simpl. rewrite andb_true_r.
  induction (routes E); simpl; auto.
Qed.

Lemma from_cors_returns E c : from_cors E c = Returned (walk_ctx (from_cors E c)).
Proof.
  unfold from_cors. apply run_stack_returns. simpl. apply routing_reads_no_body.
Qed.

(** With no matching route the walk reaches the catch-all of line 113. *)
Lemma routing_unmatched rs : forall c,
  live c ->
  find (fun rt => route_match rt (ctx_req c)) rs = None ->
  run_stack (map Route rs ++ [CatchAll]) None c
  = Returned (record (Write (SendJson not_found_payload)) c).
Proof.
  induction rs as [|rt rs IH]; intros c Hc Hf; cbn [map app run_stack find] in *.
  - unfold sendJson. rewrite res_send_live by exact Hc. reflexivity.
  - destruct (route_match rt (ctx_req c)); [discriminate|]. auto.
Qed.

(** With an error in hand nothing of the route table or the catch-all runs:
    Express' default handler answers. *)
Lemma routing_with_error rs e : forall c,
  live c ->
  run_stack (map Route rs ++ [CatchAll]) (Some e) c
  = Returned (record (Write (FinalHandler (Some e))) c).
Proof.
  induction rs as [|rt rs IH]; intros c Hc; cbn [map app run_stack]; [|auto].
  unfold finalhandler. rewrite res_send_live by exact Hc.
  destruct Hc as [-> _]. reflexivity.
Qed.

(** What the first matching route makes of the walk. *)
Lemma routing_first_match rs : forall c rt,
  live c ->
  find (fun rt => route_match rt (ctx_req c)) rs = Some rt ->
  run_stack (map Route rs ++ [CatchAll]) None c
  = let c' := record (RunRoute (route_name rt)) c in
    match route_handler rt (ctx_req c) with
    | Respond b => Returned (record (Write (HandlerResponse b)) c')
    | RespondNext b =>
      run_stack (map Route (rest_after (ctx_req c) rs) ++ [CatchAll]) None
                (record (Write (HandlerResponse b)) c')
    | CallNext =>
      run_stack (map Route (rest_after (ctx_req c) rs) ++ [CatchAll]) None c'
    | CallNextErr e => Returned (record (Write (FinalHandler (Some e))) c')
    | Async => Returned (set_pending true c')
    end.
Proof.
  induction rs as [|rt' rs IH]; intros c rt Hc Hf;
    cbn [map app run_stack find rest_after] in *; [discriminate|].
  destruct (route_match rt' (ctx_req c)) eqn:Hm; [|auto].
  injection Hf as ->. cbv zeta.
  assert (Hc' : live (record (RunRoute (route_name rt)) c))
    by (apply live_record; [exact Hc|exact I]).
  destruct (route_handler rt (ctx_req c)); try reflexivity.
  - rewrite res_send_live by exact Hc'. reflexivity.
  - rewrite res_send_live by exact Hc'. reflexivity.
  - apply routing_with_error. exact Hc'.
Qed.


Lemma app_stack_booted E : app_stack (booted E) = the_stack E.
Proof. rewrite booted_eq. reflexivity. Qed.

(** A request arriving on the stack of [runExpressServer]: the filter has
    registered its listener when the first call returns, which is before the
    body, if there is one, has been read. *)
Lemma arrive_the_stack E r :
  arrive (the_stack E) r =
  if has_json_body (req_body r)
  then Reading (req_on_timeout (new_ctx r))
               (BodyParserUrlencoded :: JsonErrorHandler :: from_cors_on E)
               (bodyParser_json (req_body r))
  else if has_urlencoded_body (req_body r)
  then Reading (req_on_timeout (new_ctx r))
               (JsonErrorHandler :: from_cors_on E)
               (bodyParser_urlencoded (req_body r))
  else Returned (req_on_timeout (walk_ctx (from_cors E (new_ctx r)))).
Proof.
  unfold arrive, the_stack, before_routes.
  change (run_stack _ None (new_ctx r))
    with (walk_map req_on_timeout
            (if has_json_body (req_body r)
             then Reading (new_ctx r)
                    (BodyParserUrlencoded :: JsonErrorHandler :: from_cors_on E)
                    (bodyParser_json (req_body r))
             else if has_urlencoded_body (req_body r)
             then Reading (new_ctx r) (JsonErrorHandler :: from_cors_on E)
                    (bodyParser_urlencoded (req_body r))
             else from_cors E (new_ctx r))).
  destruct (has_json_body (req_body r)); [reflexivity|].
  destruct (has_urlencoded_body (req_body r)); [reflexivity|].
  rewrite from_cors_returns. reflexivity.
Qed.

Lemma finish_returned n c : finish n (Returned c) = c.
Proof. destruct n; reflexivity. Qed.

(** A body parser that starts reading leaves fewer layers to walk. *)
Lemma run_stack_reading stack : forall e c c' rest e',
  run_stack stack e c = Reading c' rest e' ->
  (List.length rest < List.length stack)%nat.
Proof.
  induction stack as [|l stack IH]; intros e c c' rest e' H;
    cbn [run_stack] in H; [discriminate|].
  cbn [List.length].
  destruct e as [er|]; destruct l; unfold sendJson in H;
    repeat match type of H with
    | context [match res_send ?r ?c with _ => _ end] =>
      destruct (res_send r c) as [? []]
    | context [match route_handler ?r ?c with _ => _ end] =>
      destruct (route_handler r c)
    | context [if ?b then _ else _] => destruct b
    end;
    try discriminate H;
    try (apply IH in H; lia);
    try (injection H as _ <- _; lia).
  all: destruct (run_stack stack None c) as [c1|c1 rest1 e1] eqn:Hw;
    cbn [walk_map] in H; [discriminate|];
    injection H as _ <- _; apply IH in Hw; lia.
Qed.

(** The length of the stack is fuel enough for the whole walk. *)
Lemma finish_fuel n : forall stack e c m,
  (List.length stack <= n)%nat -> (n <= m)%nat ->
  finish m (run_stack stack e c) = finish n (run_stack stack e c).
Proof.
  induction n as [|n IH]; intros stack e c m Hs Hm;
    destruct (run_stack stack e c) as [c1|c1 rest1 e1] eqn:Hw;
    rewrite ?finish_returned; try reflexivity;
    apply run_stack_reading in Hw.
  - lia.
  - destruct m as [|m]; [lia|]. cbn [finish]. apply IH; lia.
Qed.

Lemma finish_reading E c rest e :
  finish (List.length (the_stack E)) (Reading c rest e)
  = finish (8 + List.length (routing E)) (run_stack rest e c).
Proof. reflexivity. Qed.

Lemma parse_failure_is_syntax_error : is_json_syntax_error entity_parse_failed = true.
Proof. reflexivity. Qed.

Lemma too_large_is_no_syntax_error : is_json_syntax_error entity_too_large = false.
Proof. reflexivity. Qed.

(** The whole walk of a request on that stack. *)
Lemma handle_request_the_stack E r :
  handle_request (the_stack E) r =
  match req_body r with
  | NoBody => req_on_timeout (walk_ctx (from_cors E (new_ctx r)))
  | JsonMalformed =>
    record (Write (SendJson invalid_request_payload))
      (record (ReqLog "Error while sending request (JSON invalid)")
              (req_on_timeout (new_ctx r)))
  | _ => walk_ctx (from_cors E (req_on_timeout (new_ctx r)))
  end.
Proof.
  unfold handle_request. rewrite arrive_the_stack.
  destruct r as [m pth b]. cbn [req_body].
  destruct b;
    cbn [has_json_body has_urlencoded_body bodyParser_json bodyParser_urlencoded];
    rewrite ?finish_reading, ?finish_returned; try reflexivity;
    cbn [run_stack ctx_req req_on_timeout record new_ctx req_body has_urlencoded_body];
    rewrite ?parse_failure_is_syntax_error, ?too_large_is_no_syntax_error;
    try (unfold from_cors; rewrite (run_stack_returns (from_cors_on E));
         [rewrite finish_returned; reflexivity
         |simpl; apply routing_reads_no_body]).
Qed.

(** From the CORS layer on, for a request that is not a preflight. *)
Lemma from_cors_routing E c :
  req_method (ctx_req c) <> "OPTIONS" ->
  from_cors E c = run_stack (routing E) None c.
Proof.
  intros Hm. unfold from_cors, from_cors_on. cbn [run_stack].
  destruct (String.eqb_spec (req_method (ctx_req c)) "OPTIONS"); [contradiction|].
  reflexivity.
Qed.

(* ===================================================================== *)
(** ** Properties of the request path *)
(* ===================================================================== *)



(** The walk of a request that reaches the route table, from its arrival to
    the end. *)
Lemma handle_request_routed E r :
  req_body r <> JsonMalformed ->
  req_method r <> "OPTIONS" ->
  handle_request (the_stack E) r
  = match req_body r with
    | NoBody => req_on_timeout (walk_ctx (run_stack (routing E) None (new_ctx r)))
    | _ => walk_ctx (run_stack (routing E) None (req_on_timeout (new_ctx r)))
    end.
Proof.
  intros Hb Hm. rewrite handle_request_the_stack.
  destruct (req_body r); try congruence;
    rewrite from_cors_routing by exact Hm; reflexivity.
Qed.




(** A serving process with one connection, on which a request has arrived. *)
Lemma request_arrives E r :
  forks E = false ->
  run E [EvConnOpen; EvRequest r] (booted E)
  = mkProcess Running (the_stack E)
      (Some (mkServer true 1 [] (Some (SERVER_TIMEOUT E)))) the_listeners false []
      0 (Some POLL_INTERVAL) (Some pollingDuration) [arrive (the_stack E) r]
      (start_trace ++ boot_trace E).
Proof.
  intros Hf. rewrite booted_eq. unfold the_server. rewrite Hf. reflexivity.
Qed.

(** A request without a body whose business handler has not answered yet. *)
Lemma pending_request E r rt :
  req_body r = NoBody ->
  req_method r <> "OPTIONS" ->
  find (fun rt => route_match rt r) (routes E) = Some rt ->
  route_handler rt r = Async ->
  arrive (the_stack E) r
  = Returned (req_on_timeout
                (set_pending true (record (RunRoute (route_name rt)) (new_ctx r)))).
Proof.
  intros Hb Hm Hf Hh. rewrite arrive_the_stack, Hb.
  cbn [has_json_body has_urlencoded_body].
  rewrite from_cors_routing by exact Hm. unfold routing.
  rewrite (routing_first_match (routes E) (new_ctx r) rt (live_new r) Hf).
  cbv zeta. cbn [ctx_req new_ctx]. rewrite Hh. reflexivity.
Qed.

(** C3, what the code does at the deadline: a request that has been received
    completely (here one without a body) and whose business handler has not
    answered when the socket times out gets no SERVER_TIMEOUT answer.  The
    filter has registered its listener, but 'timeout' is not emitted on a
    request that is complete: the socket is destroyed, nothing is written,
    and the answer of the handler, when it comes, is lost. *)
Theorem timeout_on_received_request (E : env) (r : request) (rt : route) :
  forks E = false ->
  req_body r = NoBody ->
  req_method r <> "OPTIONS" ->
  find (fun rt => route_match rt r) (routes E) = Some rt ->
  route_handler rt r = Async ->
  let p := run E [EvConnOpen; EvRequest r] (booted E) in
  let p' := step E p (EvSocketTimeout 0) in
  answers p = [[]]
  /\ map (fun w => ctx_timeout_listeners (walk_ctx w)) (requests p) = [1%nat]
  /\ request_logs p' = map (fun l => l ++ [SocketDestroyed]) (request_logs p)
  /\ answers p' = [[]]
  /\ map (fun w => count_type RESPONSE_MESSAGES.SERVER_TIMEOUT (walk_ctx w))
         (requests p') = [0%nat]
  /\ trace p' = trace p
  /\ forall b,
       let p'' := step E p' (EvReqHandlerDone 0 b) in
       status p'' = Running
       /\ answers p'' = [[]]
       /\ request_logs p''
          = map (fun l => l ++ [LostWrite (HandlerResponse b)]) (request_logs p').
Proof.
  intros Hfk Hb Hm Hf Hh p p'. subst p' p.
  rewrite (request_arrives E r Hfk), (pending_request E r rt Hb Hm Hf Hh).
  remember (start_trace ++ boot_trace E) as t0.
  split; [reflexivity|]. split; [reflexivity|]. split; [reflexivity|].
  split; [reflexivity|]. split; [reflexivity|]. split; [reflexivity|].
  intros b p''. subst p''.
  split; [reflexivity|]. split; reflexivity.
Qed.

Lemma timeout_on_received_request_witness :
  let r := mkRequest "GET" "/slow" NoBody in
  let p := run single_env [EvConnOpen; EvRequest r] (booted single_env) in
  let p' := step single_env p (EvSocketTimeout 0) in
  answers p = [[]]
  /\ map (fun w => ctx_timeout_listeners (walk_ctx w)) (requests p) = [1%nat]
  /\ request_logs p' = map (fun l => l ++ [SocketDestroyed]) (request_logs p)
  /\ answers p' = [[]]
  /\ map (fun w => count_type RESPONSE_MESSAGES.SERVER_TIMEOUT (walk_ctx w))
         (requests p') = [0%nat]
  /\ trace p' = trace p
  /\ forall b,
       let p'' := step single_env p' (EvReqHandlerDone 0 b) in
       status p'' = Running
       /\ answers p'' = [[]]
       /\ request_logs p''
          = map (fun l => l ++ [LostWrite (HandlerResponse b)]) (request_logs p').
Proof.
  exact (timeout_on_received_request single_env (mkRequest "GET" "/slow" NoBody)
           slow_route eq_refl eq_refl ltac:(discriminate) eq_refl eq_refl).
Defined.

(* ===================================================================== *)
(** ** Frame rules *)
(* ===================================================================== *)

Section Frame.
Variable X : Type.
Variable obs : process -> X.

Lemma keeps_ret {A} (a : A) : keeps obs (ret a).
Proof. intros p. reflexivity. Qed.

Lemma keeps_throw {A} (e : js_error) : keeps obs (@throw A e).
Proof. intros p. reflexivity. Qed.

Lemma keeps_bind {A B} (m : M A) (k : A -> M B) :
  keeps obs m -> (forall a, keeps obs (k a)) -> keeps obs (bind m k).
Proof.
  intros Hm Hk p. unfold bind. specialize (Hm p).
  destruct (m p) as [[a|e|] p']; simpl in *; [|assumption|assumption].
  rewrite Hk. assumption.
Qed.

Lemma keeps_try_catch {A} (m : M A) (h : js_error -> M A) :
  keeps obs m -> (forall e, keeps obs (h e)) -> keeps obs (try_catch m h).
Proof.
  intros Hm Hh p. unfold try_catch. specialize (Hm p).
  destruct (m p) as [[a|e|] p']; simpl in *; [assumption| |assumption].
  rewrite Hh. assumption.
Qed.

Lemma keeps_forEach {A} (l : list A) (f : A -> M unit) :
  (forall x, keeps obs (f x)) -> keeps obs (forEach l f).
Proof.
  intros Hf. induction l as [|x l IH]; simpl.
  - apply keeps_ret.
  - apply keeps_bind; auto.
Qed.

Lemma keeps_for_lt (body : Z -> M unit) :
  (forall i, keeps obs (body i)) -> forall i n, keeps obs (for_lt i n body).
Proof.
  intros Hb i n. remember (Z.to_nat (n - i)) as k eqn:Hk.
  revert i Hk. induction k as [|k IH]; intros i Hk; simp for_lt;
    destruct (Z_lt_dec i n) as [Hlt|Hge]; simpl;
    try apply keeps_ret; try lia.
  apply keeps_bind; [apply Hb|]. intros _. apply IH. lia.
Qed.

Lemma keeps_modify (f : process -> process) :
  (forall p, obs (f p) = obs p) -> keeps obs (modify f).
Proof. intros Hf p. apply Hf. Qed.

Lemma keeps_exit (code : Z) :
  (forall p, obs (with_status (Exited code)
                    (with_trace (fun t => t ++ [ProcessExit code]) p)) = obs p) ->
  keeps obs (process_exit code).
Proof. intros Hf p. apply Hf. Qed.

Lemma keeps_server (prop : string) : keeps obs (app_server_or_throw prop).
Proof. intros p. unfold app_server_or_throw. destruct (app_server p); reflexivity. Qed.

Lemma keeps_emit_process (ev : proc_event) :
  (forall ev', keeps obs (listener ev')) -> keeps obs (emit_process ev).
Proof.
  intros Hl p. unfold emit_process.
  apply (keeps_forEach (filter (proc_event_eqb ev) (listeners p)) listener Hl).
Qed.

Hypothesis listener_keeps : forall ev, keeps obs (listener ev).
Hypothesis status_unseen : forall s p, obs (with_status s p) = obs p.

Lemma uncaught_keeps (e : js_error) (p : process) : obs (uncaught e p) = obs p.
Proof.
  unfold uncaught. destruct (existsb _ _).
  - apply keeps_emit_process, listener_keeps.
  - apply status_unseen.
Qed.

Lemma run_callback_keeps (m : M unit) :
  keeps obs m -> forall p, obs (run_callback m p) = obs p.
Proof.
  intros Hm p. unfold run_callback. specialize (Hm p).
  destruct (m p) as [[a|e|] p']; simpl in *; [assumption| |assumption].
  rewrite uncaught_keeps. assumption.
Qed.

Hypothesis requests_unseen : forall l p, obs (with_requests l p) = obs p.

Lemma on_request_keeps (i : nat) (o : walk * option js_error) (p : process) :
  obs (on_request i o p) = obs p.
Proof.
  unfold on_request. destruct (snd o).
  - rewrite uncaught_keeps. apply requests_unseen.
  - apply requests_unseen.
Qed.
End Frame.

Create HintDb js.
#[local] Hint Unfold
  listener stopGraceFully server_close emitCloseIfDrained close_callback
  close_callback_resume db_close runExpressServer startServer_settled
  startServer_catch startServer internalHealthCheck internalHealthCheck_settled
  stop_polling start server_listen server_set_timeout http_createServer
  set_server process_on express app_use app_set authMiddleware_initialize
  routes_install cluster_fork console_debug console_log console_error emit : js.

Ltac frame leaf :=
  autounfold with js;
  repeat first
    [ apply keeps_ret | apply keeps_throw | apply keeps_server
    | apply keeps_bind; [|intros ?]
    | apply keeps_try_catch; [|intros ?]
    | apply keeps_forEach; intros ?
    | apply keeps_for_lt; intros ?
    | apply keeps_modify; leaf
    | apply keeps_exit; leaf
    | match goal with
      | |- keeps _ (if ?b then _ else _) => destruct b
      | |- keeps _ (match ?x with _ => _ end) => destruct x
      end ].

Ltac leaf_timers :=
  intros; unfold obs_timers;
  match goal with p : process |- _ => destruct p end;
  cbn; rewrite ?filter_app; cbn; rewrite ?app_nil_r; reflexivity.

Ltac leaf_boot :=
  intros; unfold obs_boot;
  match goal with p : process |- _ => destruct p end;
  cbn; rewrite ?filter_app; cbn; rewrite ?app_nil_r; reflexivity.

Lemma listener_keeps_timers ev : keeps obs_timers (listener ev).
Proof. destruct ev; frame leaf_timers. Qed.

Lemma listener_keeps_boot ev : keeps obs_boot (listener ev).
Proof. destruct ev; frame leaf_boot. Qed.

Lemma runExpressServer_keeps_timers E : keeps obs_timers (runExpressServer E).
Proof. frame leaf_timers. Qed.

(** Only the two timer events touch the timers or issue a health check. *)
Lemma step_keeps_timers E p ev :
  is_timer_event ev = false -> obs_timers (step E p ev) = obs_timers p.
Proof.
  intros Hev. unfold step. destruct (status p); [|reflexivity|reflexivity].
  pose proof listener_keeps_timers as Hl.
  assert (Hs : forall s q, obs_timers (with_status s q) = obs_timers q)
    by (intros s q; destruct q; reflexivity).
  assert (Hr : forall l q, obs_timers (with_requests l q) = obs_timers q)
    by (intros l q; destruct q; reflexivity).
  destruct ev; try discriminate;
    repeat match goal with
           | |- context [match ?x with _ => _ end] => destruct x
           end;
    try reflexivity;
    try (rewrite (run_callback_keeps _ _ Hl Hs);
         [leaf_timers | first [apply keeps_emit_process, Hl | frame leaf_timers]]);
    try apply (uncaught_keeps _ _ Hl Hs);
    try apply (on_request_keeps _ _ Hl Hs Hr);
    try solve [leaf_timers].
Qed.

(** Apart from the settling of [__db.init()], nothing changes the stack,
    the listeners of the process, or forks, creates or binds anything. *)
Lemma step_keeps_boot_gen E p ev :
  match ev with
  | EvDbInitSettled _ => db_init_pending p = false
  | _ => True
  end ->
  obs_boot (step E p ev) = obs_boot p.
Proof.
  intros Hp. unfold step. destruct (status p); [|reflexivity|reflexivity].
  pose proof listener_keeps_boot as Hl.
  assert (Hs : forall s q, obs_boot (with_status s q) = obs_boot q)
    by (intros s q; destruct q; reflexivity).
  assert (Hr : forall l q, obs_boot (with_requests l q) = obs_boot q)
    by (intros l q; destruct q; reflexivity).
  destruct ev; try rewrite Hp;
    repeat match goal with
           | |- context [match ?x with _ => _ end] => destruct x
           end;
    try reflexivity;
    try (rewrite (run_callback_keeps _ _ Hl Hs);
         [leaf_boot | first [apply keeps_emit_process, Hl | frame leaf_boot]]);
    try apply (uncaught_keeps _ _ Hl Hs);
    try apply (on_request_keeps _ _ Hl Hs Hr);
    try solve [leaf_boot].
Qed.

Lemma step_keeps_boot E p ev :
  db_init_pending p = false -> obs_boot (step E p ev) = obs_boot p.
Proof. intros Hp. apply step_keeps_boot_gen. destruct ev; auto. Qed.

Ltac leaf_pending :=
  intros; match goal with p : process |- _ => destruct p end; reflexivity.

(** The promise of [__db.init()] settles once. *)
Lemma settle_clears E p o :
  status p = Running -> db_init_pending (step E p (EvDbInitSettled o)) = false.
Proof.
  intros Hs. unfold step. rewrite Hs.
  destruct (db_init_pending p) eqn:Hp; [|exact Hp].
  rewrite (@run_callback_keeps _ db_init_pending).
  - destruct p; reflexivity.
  - intros ev. destruct ev; frame leaf_pending.
  - intros s q. destruct q; reflexivity.
  - destruct o; frame leaf_pending.
Qed.

(* ===================================================================== *)
(** ** Runs of the event loop *)
(* ===================================================================== *)

Lemma run_app E es1 es2 p : run E (es1 ++ es2) p = run E es2 (run E es1 p).
Proof. apply fold_left_app. Qed.

Lemma step_dead E p ev : status p <> Running -> step E p ev = p.
Proof. unfold step. destruct (status p); congruence. Qed.

Lemma run_dead E es : forall p, status p <> Running -> run E es p = p.
Proof.
  induction es as [|ev es IH]; intros p Hp; simpl; [reflexivity|].
  rewrite step_dead by assumption. apply IH, Hp.
Qed.

Lemma run_keeps_boot E es : forall p,
  db_init_pending p = false -> obs_boot (run E es p) = obs_boot p.
Proof.
  induction es as [|ev es IH]; intros p Hp; simpl; [reflexivity|].
  pose proof (step_keeps_boot E p ev Hp) as Hs.
  rewrite IH; [exact Hs|].
  unfold obs_boot in Hs. injection Hs as H _ _ _. congruence.
Qed.

Lemma count_filter_imp (f g : effect -> bool) t :
  (forall e, f e = true -> g e = true) -> count f (filter g t) = count f t.
Proof.
  intros Hfg. unfold count. induction t as [|e t IH]; simpl; [reflexivity|].
  destruct (g e) eqn:Hg; simpl; destruct (f e) eqn:Hf; simpl; auto.
  rewrite (Hfg e Hf) in Hg. discriminate.
Qed.

Lemma filter_boot_require l : filter is_boot (map Require l) = [].
Proof. induction l; simpl; auto. Qed.

Lemma filter_boot_fork n : filter is_boot (repeat ClusterFork n) = repeat ClusterFork n.
Proof. induction n; simpl; congruence. Qed.

Lemma filter_boot_booted E :
  filter is_boot (trace (booted E)) =
  DbInit :: (if forks E
             then repeat ClusterFork (Z.to_nat (numCPUs E))
             else [HttpCreateServer; ServerListen (port E)]).
Proof.
  rewrite booted_eq. unfold boot_trace. cbn [trace].
  rewrite !filter_app, filter_boot_require, app_nil_r.
  destruct (forks E); [rewrite filter_boot_fork|]; reflexivity.
Qed.

Lemma obs_boot_reached E es :
  obs_boot (run E es (booted E)) = obs_boot (booted E).
Proof. apply run_keeps_boot. rewrite booted_eq. reflexivity. Qed.

Lemma listeners_reached E es : listeners (run E es (booted E)) = the_listeners.
Proof.
  pose proof (obs_boot_reached E es) as H. unfold obs_boot in H.
  injection H as _ H _ _. rewrite H, booted_eq. reflexivity.
Qed.

Lemma numCPUs_Some E N : clusterNumber E = Some N -> numCPUs E = N.
Proof.
  unfold numCPUs. intros ->. destruct (Z.eqb_spec N 0); congruence.
Qed.

(* ===================================================================== *)
(** ** Process topology and start-up *)
(* ===================================================================== *)

(** C4: with worker count [N], the original process of a pool ([N > 0])
    forks exactly [N] times and neither creates nor binds a server; in every
    other case (worker count 0, or a forked child) the process forks nothing
    and creates and binds exactly one server.  This holds at every later
    moment of the run as well. *)
Theorem worker_pool_topology (E : env) (N : Z) (es : list event) :
  clusterNumber E = Some N ->
  let t := trace (run E es (booted E)) in
  if isMaster E && (N >? 0)
  then count is_fork t = Z.to_nat N
       /\ count is_createServer t = 0%nat
       /\ count is_listen t = 0%nat
       /\ app_server (booted E) = None
  else count is_fork t = 0%nat
       /\ count is_createServer t = 1%nat
       /\ count is_listen t = 1%nat
       /\ app_server (booted E)
          = Some (mkServer true 0 [] (Some (SERVER_TIMEOUT E))).
Proof.
  intros HN t.
  assert (Ht : filter is_boot t = filter is_boot (trace (booted E))).
  { pose proof (obs_boot_reached E es) as H. unfold obs_boot in H.
    injection H as _ _ _ H. exact H. }
  rewrite filter_boot_booted in Ht.
  assert (Hsrv : app_server (booted E) = the_server E)
    by (rewrite booted_eq; reflexivity).
  rewrite Hsrv. unfold the_server.
  rewrite <- (count_filter_imp is_fork is_boot t),
          <- (count_filter_imp is_createServer is_boot t),
          <- (count_filter_imp is_listen is_boot t), Ht
    by (intros []; simpl; intros; try discriminate; reflexivity).
  unfold forks in *. rewrite (numCPUs_Some E N HN) in *.
  destruct (isMaster E && (N >? 0)).
  - change (DbInit :: repeat ClusterFork (Z.to_nat N))
      with ([DbInit] ++ repeat ClusterFork (Z.to_nat N)).
    rewrite !count_app, !count_repeat. simpl.
    split; [reflexivity|]. split; [reflexivity|]. split; reflexivity.
  - split; [reflexivity|]. split; [reflexivity|]. split; reflexivity.
Qed.

Lemma worker_pool_topology_witness :
  let t := trace (run cluster_env [EvConnOpen; EvSignal SIGTERM] (booted cluster_env)) in
  if isMaster cluster_env && (4 >? 0)
  then count is_fork t = Z.to_nat 4
       /\ count is_createServer t = 0%nat
       /\ count is_listen t = 0%nat
       /\ app_server (booted cluster_env) = None
  else count is_fork t = 0%nat
       /\ count is_createServer t = 1%nat
       /\ count is_listen t = 1%nat
       /\ app_server (booted cluster_env)
          = Some (mkServer true 0 [] (Some (SERVER_TIMEOUT cluster_env))).
Proof.
  exact (@worker_pool_topology cluster_env 4 [EvConnOpen; EvSignal SIGTERM] eq_refl).
Defined.

(** While [__db.init()] is pending, nothing of [runExpressServer] has
    happened. *)
Lemma pre_boot E es : forall p,
  db_init_pending (run E es p) = true -> obs_boot (run E es p) = obs_boot p.
Proof.
  induction es as [|ev es IH]; intros p Hp; simpl in *; [reflexivity|].
  rewrite (IH _ Hp).
  assert (Hq : db_init_pending (step E p ev) = true).
  { pose proof (IH _ Hp) as H. unfold obs_boot in H. injection H as H _ _ _.
    congruence. }
  destruct (status p) eqn:Hs;
    [|rewrite step_dead by congruence; reflexivity
     |rewrite step_dead by congruence; reflexivity].
  apply step_keeps_boot_gen. destruct ev; auto.
  rewrite settle_clears in Hq by assumption. discriminate.
Qed.

(** C5: when the promise of [__db.init()] is rejected, the handler of line
    29 logs and exits with code 1; [__db.init()] has been called once and is
    not called again, and no server is ever created or bound, whatever
    happens before or after. *)
Theorem store_init_failure_exits (E : env) (es1 es2 : list event) (e : js_error) :
  let p1 := run E es1 (started E) in
  status p1 = Running ->
  db_init_pending p1 = true ->
  let p := run E (EvDbInitSettled (Rejected e) :: es2) p1 in
  status p = Exited 1
  /\ trace p = trace p1 ++ [ConsoleLog "Error while server start :: "; ProcessExit 1]
  /\ count is_dbInit (trace p) = 1%nat
  /\ count is_createServer (trace p) = 0%nat
  /\ count is_listen (trace p) = 0%nat.
Proof.
  intros p1 Hs Hp p.
  assert (Hstep : step E p1 (EvDbInitSettled (Rejected e)) =
                  with_status (Exited 1)
                    (with_trace (fun t => t ++ [ConsoleLog "Error while server start :: ";
                                                ProcessExit 1])
                       (with_db false (db_close_pending p1) p1))).
  { unfold step. rewrite Hs, Hp. destruct p1. unfold run_callback. js_eval.
    unfold startServer_settled, startServer_catch. js_eval.
    rewrite <- app_assoc. reflexivity. }
  assert (Hrun : p = step E p1 (EvDbInitSettled (Rejected e))).
  { subst p. simpl. apply run_dead. rewrite Hstep. destruct p1. simpl. congruence. }
  assert (Hb : filter is_boot (trace p1) = [DbInit]).
  { pose proof (pre_boot E es1 (started E) Hp) as H. unfold obs_boot in H.
    injection H as _ _ _ H. exact H. }
  rewrite Hrun, Hstep.
  assert (Ht : trace (with_status (Exited 1)
                 (with_trace (fun t => t ++ [ConsoleLog "Error while server start :: ";
                                             ProcessExit 1])
                    (with_db false (db_close_pending p1) p1)))
               = trace p1 ++ [ConsoleLog "Error while server start :: "; ProcessExit 1])
    by (destruct p1; reflexivity).
  rewrite Ht. split; [destruct p1; reflexivity|]. split; [reflexivity|].
  rewrite !count_app.
  rewrite <- (count_filter_imp is_dbInit is_boot (trace p1)),
          <- (count_filter_imp is_createServer is_boot (trace p1)),
          <- (count_filter_imp is_listen is_boot (trace p1)), Hb
    by (intros []; simpl; intros; try discriminate; reflexivity).
  repeat split; reflexivity.
Qed.

Lemma store_init_failure_exits_witness :
  let p1 := run single_env [EvIntervalTick 10000] (started single_env) in
  let p := run single_env
             [EvDbInitSettled (Rejected store_down); EvSignal SIGTERM; EvConnOpen] p1 in
  status p = Exited 1
  /\ trace p = trace p1 ++ [ConsoleLog "Error while server start :: "; ProcessExit 1]
  /\ count is_dbInit (trace p) = 1%nat
  /\ count is_createServer (trace p) = 0%nat
  /\ count is_listen (trace p) = 0%nat.
Proof.
  exact (@store_init_failure_exits single_env [EvIntervalTick 10000]
           [EvSignal SIGTERM; EvConnOpen] store_down eq_refl eq_refl).
Defined.

(* ===================================================================== *)
(** ** The health probe loop *)
(* ===================================================================== *)

Lemma internalHealthCheck_spec E p :
  internalHealthCheck E p =
  (Ok tt,
   with_timers (S (probes_pending p)) (interval p) (poll_timeout p)
     (with_trace
        (fun t => t ++ [AxiosGet ("http://localhost:" ++ string_of_Z (port E)
                                  ++ "/api/healthCheck/getPing")%string]) p)).
Proof. destruct p. reflexivity. Qed.

(** A tick is refused, or issues one health check and rearms the interval
    from the time it fired. *)
Lemma tick_obs E p t :
  obs_timers (step E p (EvIntervalTick t)) = obs_timers p
  \/ exists d url,
       interval p = Some d /\ d <= t
       /\ timer_before d (poll_timeout p) = true
       /\ obs_timers (step E p (EvIntervalTick t))
          = (Some (t + POLL_INTERVAL), poll_timeout p,
             filter is_probe (trace p) ++ [AxiosGet url]).
Proof.
  unfold step. destruct (status p); [|left; reflexivity|left; reflexivity].
  destruct (interval p) as [d|] eqn:Hi; [|left; reflexivity].
  destruct (d <=? t) eqn:Hd; [|left; reflexivity].
  destruct (timer_before d (poll_timeout p)) eqn:Hb; [|left; reflexivity].
  right. exists d. eexists. split; [reflexivity|].
  split; [apply Z.leb_le, Hd|]. split; [exact Hb|].
  simpl. unfold run_callback. rewrite internalHealthCheck_spec.
  destruct p. unfold obs_timers. cbn. rewrite filter_app. reflexivity.
Qed.

(** The window timer is refused, or clears the interval for good. *)
Lemma poll_timeout_obs E p t :
  obs_timers (step E p (EvPollTimeout t)) = obs_timers p
  \/ obs_timers (step E p (EvPollTimeout t)) = (None, None, filter is_probe (trace p)).
Proof.
  unfold step. destruct (status p); [|left; reflexivity|left; reflexivity].
  destruct (poll_timeout p) as [w|] eqn:Hw; [|left; reflexivity].
  destruct ((w <=? t) && timer_before w (interval p)); [|left; reflexivity].
  right. destruct p. unfold obs_timers, run_callback, stop_polling. js_eval.
  rewrite !filter_app. simpl. rewrite !app_nil_r. reflexivity.
Qed.

Lemma step_timers_ok E p ev :
  timers_ok (obs_timers p) -> timers_ok (obs_timers (step E p ev)).
Proof.
  intros Hok. destruct (is_timer_event ev) eqn:Hev.
  - destruct ev; try discriminate.
    + destruct (tick_obs E p t) as [->|(d & url & Hi & Hd & Hb & ->)]; [exact Hok|].
      unfold obs_timers, timers_ok in *. rewrite Hi in Hok.
      destruct Hok as [Hn [Hw Hlt]]. rewrite Hw in *. simpl in Hb.
      rewrite length_app. simpl. unfold POLL_INTERVAL, pollingDuration in *.
      repeat split; lia.
    + destruct (poll_timeout_obs E p t) as [->| ->]; [exact Hok|].
      unfold obs_timers, timers_ok in *. destruct (interval p); tauto.
  - rewrite step_keeps_timers by exact Hev. exact Hok.
Qed.

Lemma run_timers_ok E es : forall p,
  timers_ok (obs_timers p) -> timers_ok (obs_timers (run E es p)).
Proof.
  induction es as [|ev es IH]; intros p Hok; simpl; [exact Hok|].
  apply IH, step_timers_ok, Hok.
Qed.

(** Once the interval is cleared no health check is issued any more. *)
Lemma step_after_expiry E p ev :
  interval p = None ->
  interval (step E p ev) = None
  /\ filter is_probe (trace (step E p ev)) = filter is_probe (trace p).
Proof.
  intros Hi. destruct (is_timer_event ev) eqn:Hev.
  - destruct ev; try discriminate.
    + destruct (tick_obs E p t) as [H|(d & url & Hd & _)]; [|congruence].
      unfold obs_timers in H. injection H as H1 _ H3. split; congruence.
    + destruct (poll_timeout_obs E p t) as [H|H];
        unfold obs_timers in H; injection H as H1 _ H3; split; congruence.
  - pose proof (step_keeps_timers E p ev Hev) as H.
    unfold obs_timers in H. injection H as H1 _ H3. split; congruence.
Qed.

Lemma run_after_expiry E es : forall p,
  interval p = None ->
  count is_probe (trace (run E es p)) = count is_probe (trace p).
Proof.
  induction es as [|ev es IH]; intros p Hi; simpl; [reflexivity|].
  destruct (step_after_expiry E p ev Hi) as [Hi' Hf].
  rewrite (IH _ Hi'). unfold count. rewrite Hf. reflexivity.
Qed.

(** A settled health check, resolved or rejected, is logged and changes
    nothing else. *)
Lemma probe_settled_step E p o :
  status p = Running ->
  step E p (EvProbeSettled o) =
  match probes_pending p with
  | O => p
  | S n =>
    with_timers n (interval p) (poll_timeout p)
      (with_trace
         (fun t => t ++ [match o with
                         | Resolved => ConsoleLog "Health check response:"
                         | Rejected _ => ConsoleError "Health check failed:"
                         end]) p)
  end.
Proof.
  intros Hs. unfold step. rewrite Hs. destruct p. simpl.
  destruct probes_pending0; [reflexivity|]. destruct o; reflexivity.
Qed.

(** C8: at every moment of every run, the health checks issued number at
    most [ceil(pollingDuration / POLL_INTERVAL)]; once the window timer has
    cleared the interval, none is issued any more; a health check that fails
    is logged with [console.error] and leaves the timers and the process as
    they were. *)
Theorem health_probe_bounded (E : env) (es : list event) :
  let p := run E es (started E) in
  Z.of_nat (count is_probe (trace p)) <= ceil_div pollingDuration POLL_INTERVAL
  /\ (interval p = None ->
      forall es', count is_probe (trace (run E es' p)) = count is_probe (trace p))
  /\ forall e,
       let p' := step E p (EvProbeSettled (Rejected e)) in
       interval p' = interval p
       /\ poll_timeout p' = poll_timeout p
       /\ status p' = status p
       /\ count is_probe (trace p') = count is_probe (trace p)
       /\ (status p = Running -> (0 < probes_pending p)%nat ->
           trace p' = trace p ++ [ConsoleError "Health check failed:"]).
Proof.
  intros p. split; [|split].
  - assert (Hok : timers_ok (obs_timers p)).
    { apply run_timers_ok. rewrite started_eq. unfold obs_timers, timers_ok.
      simpl. repeat split; reflexivity || (unfold POLL_INTERVAL, pollingDuration; lia). }
    unfold obs_timers, timers_ok in Hok. destruct Hok as [Hn _].
    unfold count.
    change (ceil_div pollingDuration POLL_INTERVAL) with 30.
    unfold POLL_INTERVAL, pollingDuration in Hn. lia.
  - intros Hi es'. apply run_after_expiry, Hi.
  - intros e p'.
    pose proof (step_keeps_timers E p (EvProbeSettled (Rejected e)) eq_refl) as H.
    unfold obs_timers in H. injection H as H1 H2 H3. fold p' in H1, H2, H3.
    repeat split; try assumption.
    + subst p'. destruct (status p) eqn:Hs.
      * rewrite probe_settled_step by exact Hs.
        destruct p as [? ? ? ? ? ? [|n] ? ? ? ?]; simpl in *; congruence.
      * rewrite step_dead by congruence. exact Hs.
      * rewrite step_dead by congruence. exact Hs.
    + unfold count. rewrite H3. reflexivity.
    + intros Hs Hn. subst p'. rewrite probe_settled_step by exact Hs.
      destruct (probes_pending p) eqn:Hpp; [lia|]. destruct p; reflexivity.
Qed.

(* ===================================================================== *)
(** ** Signals, faults and shutdown *)
(* ===================================================================== *)

(** The shutdown callbacks of line 142 run one after the other, each up to
    its [await]. *)
Lemma forEach_close_callback l : forall p,
  forEach l close_callback p =
  (Ok tt, mkProcess (status p) (app_stack p) (app_server p) (listeners p)
            (db_init_pending p) (db_close_pending p ++ l) (probes_pending p)
            (interval p) (poll_timeout p) (requests p)
            (trace p ++ flat_map (fun _ => [close_log; DbClose]) l)).
Proof.
  induction l as [|x l IH]; intros p; simpl.
  - rewrite !app_nil_r. destruct p; reflexivity.
  - unfold bind at 1. unfold close_callback at 1. js_eval. rewrite IH. simpl.
    rewrite <- !app_assoc. reflexivity.
Qed.

Lemma count_close_callbacks (l : list (option js_error)) :
  count is_dbClose (flat_map (fun _ => [close_log; DbClose]) l) = List.length l
  /\ count is_serverClose (flat_map (fun _ => [close_log; DbClose]) l) = 0%nat.
Proof.
  unfold count. induction l as [|x l [IH1 IH2]]; simpl; auto.
Qed.

Lemma filter_listeners ev : filter (proc_event_eqb ev) the_listeners = [ev].
Proof. destruct ev; reflexivity. Qed.

(** With the listeners of lines 150-164 in place, emitting an event of the
    process runs the one listener registered for it. *)
Lemma emit_process_one ev p :
  listeners p = the_listeners ->
  run_callback (emit_process ev) p = run_callback (listener ev) p.
Proof.
  intros Hl. unfold run_callback, emit_process. rewrite Hl, filter_listeners.
  simpl. unfold bind. destruct (listener ev p) as [[[]|e|] p']; reflexivity.
Qed.

Lemma uncaught_logged e p :
  listeners p = the_listeners ->
  uncaught e p = with_trace (fun t => t ++ [crash_log]) p.
Proof.
  intros Hl. unfold uncaught, emit_process. rewrite Hl. reflexivity.
Qed.

(** A callback of a request touches the request and, when it throws, the
    log of the process; nothing else. *)
Lemma on_request_spec i o p :
  listeners p = the_listeners ->
  on_request i o p
  = mkProcess (status p) (app_stack p) (app_server p) (listeners p)
      (db_init_pending p) (db_close_pending p) (probes_pending p)
      (interval p) (poll_timeout p)
      (update_nth i (fun _ => fst o) (requests p))
      (trace p ++ match snd o with Some _ => [crash_log] | None => [] end).
Proof.
  intros Hl. unfold on_request. destruct (snd o).
  - rewrite uncaught_logged by (destruct p; exact Hl). destruct p; reflexivity.
  - destruct p; simpl; rewrite app_nil_r; reflexivity.
Qed.

Lemma signal_step E p s :
  status p = Running -> listeners p = the_listeners ->
  step E p (EvSignal s) = run_callback (listener (event_of_signal s)) p.
Proof.
  intros Hs Hl. unfold step. rewrite Hs, Hl.
  replace (existsb (proc_event_eqb (event_of_signal s)) the_listeners) with true
    by (destruct s; reflexivity).
  apply emit_process_one, Hl.
Qed.

(** In a process without a server, [stopGraceFully] throws at
    [vm.app.server.close]. *)
Lemma signal_listener_no_server s p :
  app_server p = None ->
  listener (event_of_signal s) p =
  (Throw (TypeError_undefined "close"),
   with_trace (fun t => t ++ [signal_log s]) p).
Proof.
  intros Hsv. destruct p; simpl in Hsv; subst. destruct s; reflexivity.
Qed.

(** In a process with a server, [stopGraceFully] registers one more shutdown
    callback, closes the handle, and runs the callbacks when nothing is left
    to drain. *)
Lemma signal_listener_server s p sv :
  app_server p = Some sv ->
  listener (event_of_signal s) p =
  (Ok tt,
   let once := close_once sv
               ++ [if handle sv then None else Some ERR_SERVER_NOT_RUNNING] in
   match connections sv with
   | O =>
     mkProcess (status p) (app_stack p)
       (Some (mkServer false 0 [] (timeout sv))) (listeners p)
       (db_init_pending p) (db_close_pending p ++ once) (probes_pending p)
       (interval p) (poll_timeout p) (requests p)
       (trace p ++ [signal_log s; ServerClose]
        ++ flat_map (fun _ => [close_log; DbClose]) once)
   | S n =>
     mkProcess (status p) (app_stack p)
       (Some (mkServer false (S n) once (timeout sv))) (listeners p)
       (db_init_pending p) (db_close_pending p) (probes_pending p)
       (interval p) (poll_timeout p) (requests p)
       (trace p ++ [signal_log s; ServerClose])
   end).
Proof.
  intros Hsv. destruct p; simpl in Hsv; subst. destruct sv as [h c once to].
  destruct s; unfold listener, stopGraceFully, server_close, emitCloseIfDrained;
    js_eval; destruct c; simpl; rewrite ?orb_true_r; simpl;
    rewrite ?forEach_close_callback; simpl; rewrite <- ?app_assoc; reflexivity.
Qed.

(** The original process of a pool never gets a server. *)
Lemma step_no_server E p ev :
  listeners p = the_listeners -> db_init_pending p = false ->
  app_server p = None -> app_server (step E p ev) = None.
Proof.
  intros Hl Hp Hsv. destruct (status p) eqn:Hs;
    [|rewrite step_dead by congruence; exact Hsv
     |rewrite step_dead by congruence; exact Hsv].
  destruct ev.
  - unfold step. rewrite Hs, Hp. exact Hsv.
  - rewrite signal_step by assumption. unfold run_callback.
    rewrite signal_listener_no_server by assumption.
    rewrite uncaught_logged by (destruct p; exact Hl).
    destruct p; exact Hsv.
  - unfold step. rewrite Hs, uncaught_logged by exact Hl. destruct p; exact Hsv.
  - unfold step. rewrite Hs, Hsv. exact Hsv.
  - unfold step. rewrite Hs, Hsv. exact Hsv.
  - unfold step. rewrite Hs, Hsv. exact Hsv.
  - unfold step. rewrite Hs. destruct p; exact Hsv.
  - unfold step. rewrite Hs. destruct (nth_error (requests p) i); [|exact Hsv].
    rewrite on_request_spec by exact Hl. exact Hsv.
  - unfold step. rewrite Hs. destruct (nth_error (requests p) i); [|exact Hsv].
    rewrite on_request_spec by exact Hl. exact Hsv.
  - unfold step. rewrite Hs. destruct (nth_error (db_close_pending p) k) as [error|];
      [|exact Hsv].
    unfold run_callback. destruct o.
    + destruct p; exact Hsv.
    + simpl. rewrite uncaught_logged by (destruct p; exact Hl). destruct p; exact Hsv.
  - unfold step. rewrite Hs. destruct (interval p); [|exact Hsv].
    destruct (_ && _); [|exact Hsv].
    unfold run_callback. rewrite internalHealthCheck_spec. destruct p; exact Hsv.
  - unfold step. rewrite Hs. destruct (poll_timeout p); [|exact Hsv].
    destruct (_ && _); [|exact Hsv]. destruct p; exact Hsv.
  - rewrite probe_settled_step by exact Hs.
    destruct (probes_pending p); [exact Hsv|]. destruct p; exact Hsv.
Qed.

Lemma no_server_reached E es :
  forks E = true -> app_server (run E es (booted E)) = None.
Proof.
  intros Hf.
  assert (H : forall p, listeners p = the_listeners -> db_init_pending p = false ->
                        app_server p = None -> app_server (run E es p) = None).
  { induction es as [|ev es IH]; intros p Hl Hp Hsv; simpl; [exact Hsv|].
    pose proof (step_keeps_boot E p ev Hp) as Hb. unfold obs_boot in Hb.
    injection Hb as Hb1 Hb2 _ _.
    apply IH; [congruence|congruence|apply step_no_server; assumption]. }
  apply H; rewrite booted_eq; try reflexivity.
  unfold the_server. rewrite Hf. reflexivity.
Qed.

(** C9: a fault nobody caught is logged by the listener of line 158 and
    nothing else happens: the process keeps running, nothing is closed, and
    a request arriving afterwards is handled as it would have been. *)
Theorem uncaught_fault_contained (E : env) (es : list event) (e : js_error) :
  let p := run E es (booted E) in
  status p = Running ->
  let p' := step E p (EvUncaughtException e) in
  p' = with_trace (fun t => t ++ [crash_log]) p
  /\ status p' = Running
  /\ app_server p' = app_server p
  /\ count is_serverClose (trace p') = count is_serverClose (trace p)
  /\ count is_dbClose (trace p') = count is_dbClose (trace p)
  /\ count is_exit (trace p') = count is_exit (trace p)
  /\ forall r, requests (step E p' (EvRequest r)) = requests (step E p (EvRequest r)).
Proof.
  intros p Hs p'.
  assert (Hp' : p' = with_trace (fun t => t ++ [crash_log]) p).
  { subst p'. unfold step. rewrite Hs. apply uncaught_logged.
    apply listeners_reached. }
  rewrite Hp'. clear Hp' p'. destruct p. simpl in *. subst.
  assert (Hc : forall f, f crash_log = false ->
                         count f (trace0 ++ [crash_log]) = count f trace0).
  { intros f Hf. rewrite count_app. unfold count. simpl. rewrite Hf. simpl. lia. }
  split; [reflexivity|]. split; [reflexivity|]. split; [reflexivity|].
  split; [apply Hc; reflexivity|]. split; [apply Hc; reflexivity|].
  split; [apply Hc; reflexivity|].
  intros r. unfold step. simpl.
  destruct app_server0 as [sv|]; [destruct (connections sv)|]; reflexivity.
Qed.

Lemma uncaught_fault_contained_witness :
  let p := run single_env [EvConnOpen] (booted single_env) in
  let p' := step single_env p (EvUncaughtException store_down) in
  p' = with_trace (fun t => t ++ [crash_log]) p
  /\ status p' = Running
  /\ app_server p' = app_server p
  /\ count is_serverClose (trace p') = count is_serverClose (trace p)
  /\ count is_dbClose (trace p') = count is_dbClose (trace p)
  /\ count is_exit (trace p') = count is_exit (trace p)
  /\ forall r, requests (step single_env p' (EvRequest r))
               = requests (step single_env p (EvRequest r)).
Proof.
  refine (@uncaught_fault_contained single_env [EvConnOpen] store_down _).
  rewrite booted_eq. reflexivity.
Defined.

(** C10: the original process of a pool has the SIGINT and SIGTERM listeners
    but no server; at any moment a termination signal makes [stopGraceFully]
    throw a TypeError at [vm.app.server.close], which the 'uncaughtException'
    listener logs: no listener is closed, [__db.close()] is not called, and
    the process does not exit. *)
Theorem master_signal_faults (E : env) (es : list event) (s : signal) :
  isMaster E = true ->
  numCPUs E > 0 ->
  let p := run E es (booted E) in
  status p = Running ->
  listeners p = the_listeners
  /\ app_server p = None
  /\ fst (listener (event_of_signal s) p) = Throw (TypeError_undefined "close")
  /\ let p' := step E p (EvSignal s) in
     trace p' = trace p ++ [signal_log s; crash_log]
     /\ status p' = Running
     /\ count is_serverClose (trace p') = count is_serverClose (trace p)
     /\ count is_dbClose (trace p') = count is_dbClose (trace p)
     /\ count is_exit (trace p') = count is_exit (trace p).
Proof.
  intros Hm Hn p Hs.
  assert (Hf : forks E = true).
  { unfold forks. rewrite Hm. simpl. apply Z.gtb_lt. lia. }
  pose proof (listeners_reached E es) as Hl. fold p in Hl.
  pose proof (no_server_reached E es Hf) as Hsv. fold p in Hsv.
  split; [exact Hl|]. split; [exact Hsv|].
  split; [rewrite signal_listener_no_server by exact Hsv; reflexivity|].
  intros p'. subst p'.
  rewrite signal_step by assumption. unfold run_callback.
  rewrite signal_listener_no_server by assumption.
  rewrite uncaught_logged by (destruct p; exact Hl).
  destruct p. simpl in *. subst. rewrite <- app_assoc. simpl.
  assert (Hc : forall f, f (signal_log s) = false -> f crash_log = false ->
                 count f (trace0 ++ [signal_log s; crash_log]) = count f trace0).
  { intros f Hf1 Hf2. rewrite count_app. unfold count. simpl.
    rewrite Hf1, Hf2. simpl. lia. }
  split; [reflexivity|]. split; [reflexivity|].
  split; [apply Hc; destruct s; reflexivity|].
  split; apply Hc; destruct s; reflexivity.
Qed.

Lemma master_signal_faults_witness :
  let p := run cluster_env [EvIntervalTick 10000] (booted cluster_env) in
  listeners p = the_listeners
  /\ app_server p = None
  /\ fst (listener (event_of_signal SIGTERM) p) = Throw (TypeError_undefined "close")
  /\ let p' := step cluster_env p (EvSignal SIGTERM) in
     trace p' = trace p ++ [signal_log SIGTERM; crash_log]
     /\ status p' = Running
     /\ count is_serverClose (trace p') = count is_serverClose (trace p)
     /\ count is_dbClose (trace p') = count is_dbClose (trace p)
     /\ count is_exit (trace p') = count is_exit (trace p).
Proof.
  refine (@master_signal_faults cluster_env [EvIntervalTick 10000] SIGTERM
            eq_refl _ _).
  - reflexivity.
  - rewrite booted_eq. reflexivity.
Defined.

Lemma emitCloseIfDrained_spec p sv :
  app_server p = Some sv ->
  emitCloseIfDrained p =
  (Ok tt,
   if handle sv || negb (Nat.eqb (connections sv) 0)
   then p
   else mkProcess (status p) (app_stack p)
          (Some (mkServer (handle sv) (connections sv) [] (timeout sv)))
          (listeners p) (db_init_pending p)
          (db_close_pending p ++ close_once sv) (probes_pending p)
          (interval p) (poll_timeout p) (requests p)
          (trace p ++ flat_map (fun _ => [close_log; DbClose]) (close_once sv))).
Proof.
  intros Hsv. destruct p; simpl in Hsv; subst. destruct sv as [h c once to].
  unfold emitCloseIfDrained. js_eval.
  destruct (h || negb (Nat.eqb c 0)); [reflexivity|].
  rewrite forEach_close_callback. reflexivity.
Qed.

(** Events that add nothing to the bookkeeping. *)
Lemma shutdown_inv_same n p p' l :
  status p' = status p -> listeners p' = listeners p ->
  db_init_pending p' = db_init_pending p -> app_server p' = app_server p ->
  trace p' = trace p ++ l ->
  count is_serverClose l = 0%nat -> count is_dbClose l = 0%nat ->
  shutdown_inv n p -> shutdown_inv n p'.
Proof.
  intros H1 H2 H3 H4 H5 H6 H7 (Hs & Hl & Hp & sv & Hsv & Hc1 & Hc2 & Hd).
  unfold shutdown_inv. rewrite H1, H2, H3, H4, H5, !count_app, H6, H7.
  split; [exact Hs|]. split; [exact Hl|]. split; [exact Hp|].
  exists sv. split; [exact Hsv|]. split; [lia|]. split; [lia|exact Hd].
Qed.

Lemma step_shutdown_inv E n p ev :
  is_db_close_settled ev = false ->
  shutdown_inv n p ->
  shutdown_inv (if is_signal_event ev then S n else n) (step E p ev).
Proof.
  intros Hev Hinv. pose proof Hinv as (Hs & Hl & Hp & sv & Hsv & Hc1 & Hc2 & Hd).
  destruct ev; try discriminate; simpl.
  - (* the promise of __db.init() has settled long ago *)
    unfold step. rewrite Hs, Hp. exact Hinv.
  - (* a termination signal *)
    rewrite signal_step by assumption. unfold run_callback.
    rewrite (signal_listener_server s p sv Hsv). cbv zeta.
    pose proof (count_close_callbacks
                  (close_once sv ++ [if handle sv then None
                                     else Some ERR_SERVER_NOT_RUNNING])) as [Hf1 Hf2].
    assert (Hg1 : count is_serverClose [signal_log s; ServerClose] = 1%nat)
      by (destruct s; reflexivity).
    assert (Hg2 : count is_dbClose [signal_log s; ServerClose] = 0%nat)
      by (destruct s; reflexivity).
    rewrite length_app in Hf1. simpl in Hf1.
    destruct (connections sv) as [|k] eqn:Hk; unfold shutdown_inv; cbn [status
      listeners db_init_pending app_server trace];
      (split; [exact Hs|]); (split; [exact Hl|]); (split; [exact Hp|]);
      eexists; (split; [reflexivity|]); cbn [close_once handle connections].
    + rewrite !count_app, Hf1, Hf2, Hg1, Hg2. simpl.
      split; [lia|]. split; [lia|reflexivity].
    + rewrite !count_app, Hg1, Hg2, length_app. simpl.
      split; [lia|]. split; [lia|]. intros _ Habs. discriminate.
  - (* an uncaught fault *)
    unfold step. rewrite Hs, uncaught_logged by exact Hl.
    apply (shutdown_inv_same n p _ [crash_log]); try (destruct p; reflexivity).
    exact Hinv.
  - (* a connection opens *)
    unfold step. rewrite Hs, Hsv. destruct (handle sv) eqn:Hh; [|exact Hinv].
    unfold shutdown_inv. destruct p; simpl in *.
    split; [exact Hs|]. split; [exact Hl|]. split; [exact Hp|].
    eexists. split; [reflexivity|]. simpl. rewrite Hh.
    split; [exact Hc1|]. split; [exact Hc2|]. intros Habs. discriminate.
  - (* a connection ends *)
    unfold step. rewrite Hs, Hsv. destruct (connections sv) as [|k] eqn:Hk;
      [exact Hinv|].
    unfold run_callback.
    rewrite (emitCloseIfDrained_spec
               (with_app (app_stack p) (Some (set_connections k sv)) p)
               (set_connections k sv)) by (destruct p; reflexivity).
    pose proof (count_close_callbacks (close_once sv)) as [Hf1 Hf2].
    unfold shutdown_inv. destruct p; simpl in *.
    destruct (handle sv) eqn:Hh; simpl.
    + split; [exact Hs|]. split; [exact Hl|]. split; [exact Hp|].
      eexists. split; [reflexivity|]. simpl. rewrite Hh.
      split; [exact Hc1|]. split; [exact Hc2|]. intros Habs. discriminate.
    + destruct k as [|k]; simpl.
      * split; [exact Hs|]. split; [exact Hl|]. split; [exact Hp|].
        eexists. split; [reflexivity|]. simpl.
        rewrite !count_app, Hf1, Hf2.
        split; [lia|]. split; [lia|reflexivity].
      * split; [exact Hs|]. split; [exact Hl|]. split; [exact Hp|].
        eexists. split; [reflexivity|]. simpl.
        split; [exact Hc1|]. split; [exact Hc2|]. intros _ Habs. discriminate.
  - (* a request arrives *)
    unfold step. rewrite Hs, Hsv. destruct (connections sv); [exact Hinv|].
    apply (shutdown_inv_same n p _ []); try (destruct p; reflexivity);
      [destruct p; simpl; rewrite app_nil_r; reflexivity|exact Hinv].
  - (* the body of a request is in *)
    unfold step. rewrite Hs.
    apply (shutdown_inv_same n p _ []); try (destruct p; reflexivity);
      [destruct p; simpl; rewrite app_nil_r; reflexivity|exact Hinv].
  - (* the socket of a request idles *)
    unfold step. rewrite Hs. destruct (nth_error (requests p) i); [|exact Hinv].
    rewrite on_request_spec by exact Hl.
    eapply (shutdown_inv_same n p _ _); try reflexivity; [| |exact Hinv];
      destruct (snd _); reflexivity.
  - (* a business handler answers *)
    unfold step. rewrite Hs. destruct (nth_error (requests p) i); [|exact Hinv].
    rewrite on_request_spec by exact Hl.
    eapply (shutdown_inv_same n p _ _); try reflexivity; [| |exact Hinv];
      destruct (snd _); reflexivity.
  - (* the interval fires *)
    unfold step. rewrite Hs. destruct (interval p); [|exact Hinv].
    destruct (_ && _); [|exact Hinv].
    unfold run_callback. rewrite internalHealthCheck_spec.
    eapply (shutdown_inv_same n p _ [AxiosGet _]); try (destruct p; reflexivity).
    exact Hinv.
  - (* the window timer fires *)
    unfold step. rewrite Hs. destruct (poll_timeout p); [|exact Hinv].
    destruct (_ && _); [|exact Hinv].
    apply (shutdown_inv_same n p _
             [ClearInterval; ConsoleLog "Stopped polling after 5 minutes."]);
      try (destruct p; reflexivity);
      [destruct p; unfold run_callback, stop_polling; js_eval;
       rewrite <- app_assoc; reflexivity|exact Hinv].
  - (* a health check settles *)
    rewrite probe_settled_step by exact Hs.
    destruct (probes_pending p); [exact Hinv|].
    eapply (shutdown_inv_same n p _ [_]); try (destruct p; reflexivity);
      try (destruct o; reflexivity). exact Hinv.
Qed.

Lemma run_shutdown_inv E es : forall n p,
  forallb (fun ev => negb (is_db_close_settled ev)) es = true ->
  shutdown_inv n p ->
  shutdown_inv (n + signals_in es) (run E es p).
Proof.
  induction es as [|ev es IH]; intros n p Hes Hinv; simpl in *.
  - rewrite Nat.add_0_r. exact Hinv.
  - apply andb_prop in Hes as [Hev Hes]. apply negb_true_iff in Hev.
    pose proof (step_shutdown_inv E n p ev Hev Hinv) as Hstep.
    specialize (IH _ _ Hes Hstep). unfold signals_in in *. simpl.
    destruct (is_signal_event ev); simpl in *;
      [rewrite Nat.add_succ_r|]; exact IH.
Qed.

Lemma booted_shutdown_inv E : forks E = false -> shutdown_inv 0 (booted E).
Proof.
  intros Hf. rewrite booted_eq. unfold shutdown_inv, the_server. rewrite Hf.
  cbn [status listeners db_init_pending app_server trace].
  split; [reflexivity|]. split; [reflexivity|]. split; [reflexivity|].
  eexists. split; [reflexivity|]. unfold boot_trace. rewrite Hf.
  assert (Hr : forall f l, (forall x, f (Require x) = false) ->
                           count f (map Require l) = 0%nat).
  { intros f l Hx. unfold count. induction l; simpl; [reflexivity|].
    rewrite Hx. assumption. }
  rewrite !count_app, !Hr by reflexivity. simpl.
  split; [reflexivity|]. split; [reflexivity|]. intros Habs. discriminate.
Qed.

(** C1, as the code has it: nothing guards [stopGraceFully] against a second
    call.  In a serving process, as long as no [__db.close()] has settled,
    every termination signal calls [server.close] with one more callback;
    each callback calls [__db.close()] once the listener has drained, so the
    store is closed once per signal received (once only when one signal is
    received). *)
Theorem shutdown_once_per_signal (E : env) (es : list event) :
  forks E = false ->
  forallb (fun ev => negb (is_db_close_settled ev)) es = true ->
  let p := run E es (booted E) in
  status p = Running
  /\ count is_serverClose (trace p) = signals_in es
  /\ (count is_dbClose (trace p) + close_callbacks_waiting p)%nat = signals_in es
  /\ (drained p = true -> count is_dbClose (trace p) = signals_in es).
Proof.
  intros Hf Hes p.
  pose proof (run_shutdown_inv E es 0 (booted E) Hes (booted_shutdown_inv E Hf))
    as (Hs & _ & _ & sv & Hsv & Hc1 & Hc2 & Hd).
  fold p in Hs, Hsv, Hc1, Hc2. simpl in Hc1, Hc2.
  unfold close_callbacks_waiting, drained. rewrite Hsv.
  split; [exact Hs|]. split; [exact Hc1|]. split; [exact Hc2|].
  intros Hdr. apply andb_prop in Hdr as [Hh Hc].
  apply negb_true_iff in Hh. apply Nat.eqb_eq in Hc.
  rewrite (Hd Hh Hc) in Hc2. simpl in Hc2. lia.
Qed.

Lemma shutdown_once_per_signal_witness :
  let p := run single_env
             [EvConnOpen; EvSignal SIGTERM; EvSignal SIGINT; EvConnClose]
             (booted single_env) in
  status p = Running
  /\ count is_serverClose (trace p) = 2%nat
  /\ (count is_dbClose (trace p) + close_callbacks_waiting p)%nat = 2%nat
  /\ (drained p = true -> count is_dbClose (trace p) = 2%nat).
Proof.
  exact (shutdown_once_per_signal single_env
           [EvConnOpen; EvSignal SIGTERM; EvSignal SIGINT; EvConnClose]
           eq_refl eq_refl).
Defined.

(** C1 as stated fails: a second termination signal while the first is
    draining logs, calls [server.close] again, and when the last connection
    ends [__db.close()] is called twice. *)
Lemma second_signal_counterexample :
  let p1 := run single_env [EvConnOpen; EvSignal SIGTERM] (booted single_env) in
  let p2 := step single_env p1 (EvSignal SIGINT) in
  let p3 := step single_env p2 EvConnClose in
  drained p1 = false
  /\ trace p2 = trace p1 ++ [ConsoleLog "SIGINT received"; ServerClose]
  /\ count is_dbClose (trace p3) = 2%nat
  /\ db_close_pending p3 = [None; Some ERR_SERVER_NOT_RUNNING].
Proof.
  rewrite booted_eq. split; [reflexivity|]. split; [reflexivity|].
  split; reflexivity.
Qed.

(** The end of the shutdown callback (lines 145-146): with [__db.close()]
    resolved the process exits with 1 when the callback was given an error
    and with 0 otherwise; with [__db.close()] rejected the [await] throws,
    nothing handles the rejection, and [process.exit] is not reached. *)
Lemma close_callback_settled p error o :
  run_callback (close_callback_resume error o) p =
  match o with
  | Resolved =>
    with_status (Exited (match error with Some _ => 1 | None => 0 end))
      (with_trace
         (fun t => t ++ [ConsoleDebug "server is closed";
                         ProcessExit (match error with Some _ => 1 | None => 0 end)])
         p)
  | Rejected e => uncaught e p
  end.
Proof.
  destruct o; [|reflexivity]. destruct p. unfold run_callback, close_callback_resume.
  js_eval. rewrite <- app_assoc. reflexivity.
Qed.

Lemma count_exit_booted E : count is_exit (trace (booted E)) = 0%nat.
Proof.
  rewrite booted_eq. cbn [trace]. unfold boot_trace.
  assert (Hr : forall l, count is_exit (map Require l) = 0%nat)
    by (intros l; unfold count; induction l; simpl; auto).
  rewrite !count_app, Hr. destruct (forks E); [rewrite count_repeat|]; reflexivity.
Qed.

(** C2, on the code: after a termination signal in a serving process with
    nothing to drain, the listener closes without error and [__db.close()]
    is called.  When it resolves the process exits with code 0.  When it is
    rejected the process does not exit at all: the rejection is logged by
    the 'uncaughtException' listener and no [process.exit] is made, so exit
    code 1 is not produced. *)
Theorem store_close_error_no_exit (E : env) (s : signal) (e : js_error) :
  forks E = false ->
  let p0 := step E (booted E) (EvSignal s) in
  db_close_pending p0 = [None]
  /\ count is_dbClose (trace p0) = 1%nat
  /\ status (step E p0 (EvDbCloseSettled 0 Resolved)) = Exited 0
  /\ let p := step E p0 (EvDbCloseSettled 0 (Rejected e)) in
     status p = Running
     /\ trace p = trace p0 ++ [crash_log]
     /\ count is_exit (trace p) = 0%nat.
Proof.
  intros Hf p0.
  pose proof (count_exit_booted E) as Hx.
  pose proof (booted_shutdown_inv E Hf) as (_ & _ & _ & sv & _ & _ & Hdb & _).
  assert (Hp0 : p0 =
    mkProcess Running (the_stack E)
      (Some (mkServer false 0 [] (Some (SERVER_TIMEOUT E)))) the_listeners
      false [None] 0 (Some POLL_INTERVAL) (Some pollingDuration) []
      (trace (booted E) ++ [signal_log s; ServerClose; close_log; DbClose])).
  { subst p0. rewrite signal_step by (rewrite booted_eq; reflexivity).
    unfold run_callback.
    rewrite (signal_listener_server s (booted E)
               (mkServer true 0 [] (Some (SERVER_TIMEOUT E))))
      by (rewrite booted_eq; unfold the_server; rewrite Hf; reflexivity).
    rewrite booted_eq. reflexivity. }
  rewrite Hp0. cbn [db_close_pending trace].
  split; [reflexivity|].
  split.
  { rewrite count_app. assert (Hz : count is_dbClose (trace (booted E)) = 0%nat) by lia.
    rewrite Hz. destruct s; reflexivity. }
  split; [reflexivity|].
  unfold step. cbn [status db_close_pending nth_error db_init_pending remove_nth].
  rewrite close_callback_settled, uncaught_logged by reflexivity.
  cbn [with_db with_trace status app_stack app_server listeners db_init_pending
       db_close_pending probes_pending interval poll_timeout requests trace].
  split; [reflexivity|]. split; [reflexivity|].
  rewrite !count_app, Hx. destruct s; reflexivity.
Qed.

Lemma store_close_error_no_exit_witness :
  let p0 := step single_env (booted single_env) (EvSignal SIGTERM) in
  db_close_pending p0 = [None]
  /\ count is_dbClose (trace p0) = 1%nat
  /\ status (step single_env p0 (EvDbCloseSettled 0 Resolved)) = Exited 0
  /\ let p := step single_env p0 (EvDbCloseSettled 0 (Rejected store_down)) in
     status p = Running
     /\ trace p = trace p0 ++ [crash_log]
     /\ count is_exit (trace p) = 0%nat.
Proof.
  exact (store_close_error_no_exit single_env SIGTERM store_down eq_refl).
Defined.

(** The listener side of C2 does hold: a callback that was given an error
    (the server was not running when [close] was called) exits with code 1
    once [__db.close()] has resolved. *)
Example listener_close_error_exits_1 :
  let p := run single_env
             [EvSignal SIGTERM; EvSignal SIGINT; EvDbCloseSettled 1 Resolved]
             (booted single_env) in
  db_close_pending
    (run single_env [EvSignal SIGTERM; EvSignal SIGINT] (booted single_env))
  = [None; Some ERR_SERVER_NOT_RUNNING]
  /\ status p = Exited 1.
Proof. rewrite booted_eq. split; reflexivity. Qed.

(** The bound of C8 is reached when no tick is late. *)
Example thirty_health_checks :
  let ticks := map (fun k => EvIntervalTick (Z.of_nat k * POLL_INTERVAL)) (seq 1 30) in
  let p := run single_env (ticks ++ [EvPollTimeout pollingDuration])
             (started single_env) in
  count is_probe (trace p) = 30%nat /\ interval p = None.
Proof. split; reflexivity. Qed.


(* ===================================================================== *)
(** ** More on the request path *)
(* ===================================================================== *)

(** A property of the whole walk of a request that reaches the route table
    holds when it holds of both orders in which the filter can register its
    listener: after the walk, for a request without a body, and before the
    route table is reached, for a request whose body had to be read. *)
Lemma handle_request_routed_cases E r (P : ctx -> Prop) :
  req_body r <> JsonMalformed ->
  req_method r <> "OPTIONS" ->
  P (req_on_timeout (walk_ctx (run_stack (routing E) None (new_ctx r)))) ->
  P (walk_ctx (run_stack (routing E) None (req_on_timeout (new_ctx r)))) ->
  P (handle_request (the_stack E) r).
Proof.
  intros Hb Hm H1 H2. rewrite handle_request_routed by assumption.
  destruct (req_body r); assumption.
Qed.

Lemma headersSent_record e c : headersSent c = true -> headersSent (record e c) = true.
Proof.
  unfold headersSent, record. cbn [ctx_log]. intros H. rewrite existsb_snoc, H.
  reflexivity.
Qed.



Lemma log_on_timeout c : ctx_log (req_on_timeout c) = ctx_log c ++ [OnTimeout].
Proof. reflexivity. Qed.

Lemma res_send_answered r c :
  headersSent c = true -> res_send r c = (record HeadersSent c, false).
Proof. intros H. unfold res_send. rewrite H. reflexivity. Qed.

(** Once a request has been answered, nothing the rest of the stack does
    reaches the caller. *)
Lemma answered_no_more_writes stack : forall e c,
  headersSent c = true ->
  writes (ctx_log (walk_ctx (run_stack stack e c))) = writes (ctx_log c).
Proof.
  induction stack as [|l stack IH]; intros e c Hc; cbn [run_stack].
  - unfold finalhandler. rewrite Hc. destruct e; cbn [walk_ctx]; [|reflexivity].
    unfold destroy, record. cbn [ctx_log]. rewrite writes_app. apply app_nil_r.
  - destruct e as [er|]; destruct l; unfold sendJson;
      repeat match goal with
      | |- context [match route_handler ?r ?c with _ => _ end] =>
        destruct (route_handler r c)
      | |- context [if ?b then _ else _] => destruct b
      | |- context [res_send ?r ?c'] =>
        rewrite (res_send_answered r c')
          by (repeat apply headersSent_record; exact Hc)
      end;
      rewrite ?walk_ctx_map, ?log_on_timeout; cbn [walk_ctx];
      rewrite ?writes_app;
      rewrite ?IH by (repeat apply headersSent_record; exact Hc);
      unfold set_pending, record; cbn [ctx_log]; rewrite ?writes_app; simpl;
      rewrite ?app_nil_r; reflexivity.
Qed.

Lemma headersSent_write r c : headersSent (record (Write r) c) = true.
Proof.
  unfold headersSent, record. cbn [ctx_log]. rewrite existsb_snoc.
  apply orb_true_r.
Qed.

Lemma writes_record_write r c :
  writes (ctx_log (record (Write r) c)) = writes (ctx_log c) ++ [r].
Proof. unfold record. cbn [ctx_log]. rewrite writes_app. reflexivity. Qed.

Lemma writes_record_route n c :
  writes (ctx_log (record (RunRoute n) c)) = writes (ctx_log c).
Proof. unfold record. cbn [ctx_log]. rewrite writes_app. apply app_nil_r. Qed.

Lemma writes_record_log m c :
  writes (ctx_log (record (ReqLog m) c)) = writes (ctx_log c).
Proof. unfold record. cbn [ctx_log]. rewrite writes_app. apply app_nil_r. Qed.

Lemma writes_on_timeout c : writes (ctx_log (req_on_timeout c)) = writes (ctx_log c).
Proof. rewrite log_on_timeout, writes_app. apply app_nil_r. Qed.

(** Below the body parsers, a walk that starts on a request nothing has been
    answered on ends with one answer received, or with none and a business
    handler that has yet to answer. *)
Lemma one_answer_or_pending stack :
  forallb (fun l => negb (reads_body l)) stack = true ->
  forall e c, live c -> writes (ctx_log c) = [] ->
  let c' := walk_ctx (run_stack stack e c) in
  (exists w, writes (ctx_log c') = [w])
  \/ (writes (ctx_log c') = [] /\ ctx_pending c' = true).
Proof.
  induction stack as [|l stack IH]; intros Hs e c Hc Hw; cbn [run_stack].
  - left. unfold finalhandler. destruct Hc as [Hh Hd]. rewrite Hh.
    rewrite (res_send_live _ c (conj Hh Hd)). cbn [walk_ctx fst].
    rewrite writes_record_write, Hw. eexists; reflexivity.
  - simpl in Hs. apply andb_prop in Hs as [Hl Hs]. specialize (IH Hs).
    assert (Hans : forall st e' w c1,
               live c1 -> writes (ctx_log c1) = [] ->
               exists w', writes (ctx_log (walk_ctx
                            (run_stack st e' (record (Write w) c1)))) = [w']).
    { intros st e' w c1 Hc1 Hw1. exists w.
      rewrite answered_no_more_writes by apply headersSent_write.
      rewrite writes_record_write, Hw1. reflexivity. }
    assert (Hret : forall w c1,
               writes (ctx_log c1) = [] ->
               exists w', writes (ctx_log (record (Write w) c1)) = [w']).
    { intros w c1 Hw1. exists w. rewrite writes_record_write, Hw1. reflexivity. }
    destruct e as [er|]; destruct l; try discriminate Hl; unfold sendJson;
      try (apply IH; assumption).
    + destruct (is_json_syntax_error er); [|apply IH; assumption].
      rewrite res_send_live by (apply live_record; [exact Hc|exact I]).
      left. apply Hret. rewrite writes_record_log. exact Hw.
    + destruct (negb (ctx_timedout c)).
      * rewrite walk_ctx_map. cbv zeta. rewrite writes_on_timeout.
        exact (IH None c Hc Hw).
      * rewrite res_send_live by exact Hc. left. cbn [walk_ctx].
        rewrite writes_on_timeout. apply Hret, Hw.
    + destruct (String.eqb _ _); [|apply IH; assumption].
      rewrite res_send_live by exact Hc. left. apply Hret, Hw.
    + destruct (route_match r (ctx_req c)); [|apply IH; assumption].
      assert (Hc' : live (record (RunRoute (route_name r)) c))
        by (apply live_record; [exact Hc|exact I]).
      assert (Hw' : writes (ctx_log (record (RunRoute (route_name r)) c)) = [])
        by (rewrite writes_record_route; exact Hw).
      destruct (route_handler r (ctx_req c)).
      * rewrite res_send_live by exact Hc'. left. apply Hret, Hw'.
      * rewrite res_send_live by exact Hc'. left. apply Hans; assumption.
      * apply IH; assumption.
      * apply IH; assumption.
      * right. cbn [walk_ctx]. split; [exact Hw'|reflexivity].
    + rewrite res_send_live by exact Hc. left. apply Hret, Hw.
Qed.

(** X1: the caller of a request that walks the stack of [runExpressServer]
    receives exactly one answer, or none while a business handler has yet to
    answer; it never receives two, whatever the business routes do, for a
    second answer on a response throws. *)
Theorem dispatch_one_answer (E : env) (r : request) :
  let c := handle_request (app_stack (booted E)) r in
  (exists w, writes (ctx_log c) = [w])
  \/ (writes (ctx_log c) = [] /\ ctx_pending c = true).
Proof.
  rewrite app_stack_booted, handle_request_the_stack.
  assert (Hs : forallb (fun l => negb (reads_body l)) (from_cors_on E) = true)
    by (simpl; apply routing_reads_no_body).
  pose proof (one_answer_or_pending (from_cors_on E) Hs None) as Ho.
  destruct (req_body r); cbv zeta;
    try exact (Ho (req_on_timeout (new_ctx r)) (live_on_timeout _ (live_new r))
                  eq_refl).
  - rewrite writes_on_timeout. exact (Ho (new_ctx r) (live_new r) eq_refl).
  - left. eexists; reflexivity.
Qed.






(** X4: the error handler of line 93 is registered before the route table,
    so an error a business route passes to [next] (or throws) never reaches
    it: whatever the error, even a JSON syntax error, the request is
    answered once, by Express' default error handler, and neither with
    INVALID_REQUEST nor with NOT_FOUND. *)
Theorem route_error_gets_default_answer
        (E : env) (r : request) (rt : route) (e : js_error) :
  req_body r <> JsonMalformed ->
  req_method r <> "OPTIONS" ->
  find (fun rt => route_match rt r) (routes E) = Some rt ->
  route_handler rt r = CallNextErr e ->
  let c := handle_request (app_stack (booted E)) r in
  writes (ctx_log c) = [FinalHandler (Some e)]
  /\ routes_run (ctx_log c) = [route_name rt]
  /\ count_type RESPONSE_MESSAGES.INVALID_REQUEST c = 0%nat
  /\ count_type RESPONSE_MESSAGES.NOT_FOUND c = 0%nat.
Proof.
  intros Hb Hm Hf Hh. rewrite app_stack_booted. intros c. subst c.
  apply handle_request_routed_cases; try assumption; unfold routing.
  - rewrite (routing_first_match (routes E) (new_ctx r) rt (live_new r) Hf).
    cbv zeta. cbn [ctx_req new_ctx]. rewrite Hh.
    split; [reflexivity|]. split; [reflexivity|]. split; reflexivity.
  - rewrite (routing_first_match (routes E) (req_on_timeout (new_ctx r)) rt
               (live_on_timeout _ (live_new r)) Hf).
    cbv zeta. cbn [ctx_req new_ctx req_on_timeout record]. rewrite Hh.
    split; [reflexivity|]. split; [reflexivity|]. split; reflexivity.
Qed.

Lemma route_error_gets_default_answer_witness :
  let c := handle_request (app_stack (booted broken_env))
             (mkRequest "GET" "/broken" NoBody) in
  writes (ctx_log c) = [FinalHandler (Some entity_parse_failed)]
  /\ routes_run (ctx_log c) = [route_name failing_route]
  /\ count_type RESPONSE_MESSAGES.INVALID_REQUEST c = 0%nat
  /\ count_type RESPONSE_MESSAGES.NOT_FOUND c = 0%nat.
Proof.
  exact (route_error_gets_default_answer broken_env
           (mkRequest "GET" "/broken" NoBody) failing_route entity_parse_failed
           ltac:(discriminate) ltac:(discriminate) eq_refl eq_refl).
Defined.


(* ===================================================================== *)
(** ** More on start-up *)
(* ===================================================================== *)

(** X5: [start] arms the health-check interval right after calling
    [startServer], without waiting for it: a tick that fires while
    [__db.init()] is still pending issues a health check although the
    process has no server yet. *)
Theorem health_check_before_listener (E : env) (t : Z) :
  POLL_INTERVAL <= t ->
  let p := step E (started E) (EvIntervalTick t) in
  db_init_pending p = true
  /\ app_server p = None
  /\ count is_listen (trace p) = 0%nat
  /\ trace p = trace (started E)
               ++ [AxiosGet ("http://localhost:" ++ string_of_Z (port E)
                             ++ "/api/healthCheck/getPing")%string]
  /\ interval p = Some (t + POLL_INTERVAL).
Proof.
  intros Ht. rewrite started_eq. unfold step.
  cbn [status interval poll_timeout timer_before probes_pending].
  replace (POLL_INTERVAL <=? t) with true by (symmetry; apply Z.leb_le; exact Ht).
  replace (POLL_INTERVAL <=? pollingDuration) with true by reflexivity.
  cbn [andb]. unfold run_callback. rewrite internalHealthCheck_spec.
  split; [reflexivity|]. split; [reflexivity|]. split; [reflexivity|].
  split; reflexivity.
Qed.

Lemma health_check_before_listener_witness :
  let p := step single_env (started single_env) (EvIntervalTick 10003) in
  db_init_pending p = true
  /\ app_server p = None
  /\ count is_listen (trace p) = 0%nat
  /\ trace p = trace (started single_env)
               ++ [AxiosGet ("http://localhost:" ++ string_of_Z (port single_env)
                             ++ "/api/healthCheck/getPing")%string]
  /\ interval p = Some (10003 + POLL_INTERVAL).
Proof.
  exact (health_check_before_listener single_env 10003 ltac:(discriminate)).
Defined.

(** X6: the original process of a pool runs the health-check loop as well:
    it issues health checks against its own port although it never has a
    server. *)
Theorem master_issues_health_checks (E : env) (t : Z) :
  forks E = true ->
  POLL_INTERVAL <= t ->
  let p := step E (booted E) (EvIntervalTick t) in
  app_server p = None
  /\ count is_listen (trace p) = 0%nat
  /\ trace p = trace (booted E)
               ++ [AxiosGet ("http://localhost:" ++ string_of_Z (port E)
                             ++ "/api/healthCheck/getPing")%string].
Proof.
  intros Hf Ht.
  assert (Hl : count is_listen (trace (booted E)) = 0%nat).
  { rewrite <- (count_filter_imp is_listen is_boot)
      by (intros []; simpl; intros; try discriminate; reflexivity).
    rewrite filter_boot_booted, Hf.
    change (DbInit :: repeat ClusterFork (Z.to_nat (numCPUs E)))
      with ([DbInit] ++ repeat ClusterFork (Z.to_nat (numCPUs E))).
    rewrite count_app, count_repeat. reflexivity. }
  revert Hl. rewrite booted_eq. unfold the_server. rewrite Hf. intros Hl.
  unfold step. cbn [status interval poll_timeout timer_before probes_pending].
  replace (POLL_INTERVAL <=? t) with true by (symmetry; apply Z.leb_le; exact Ht).
  replace (POLL_INTERVAL <=? pollingDuration) with true by reflexivity.
  cbn [andb]. unfold run_callback. rewrite internalHealthCheck_spec.
  cbn [with_timers with_trace trace app_server status app_stack listeners
       db_init_pending db_close_pending probes_pending interval poll_timeout
       requests] in *.
  split; [reflexivity|]. split; [|reflexivity].
  rewrite count_app, Hl. reflexivity.
Qed.

Lemma master_issues_health_checks_witness :
  let p := step cluster_env (booted cluster_env) (EvIntervalTick 10000) in
  app_server p = None
  /\ count is_listen (trace p) = 0%nat
  /\ trace p = trace (booted cluster_env)
               ++ [AxiosGet ("http://localhost:" ++ string_of_Z (port cluster_env)
                             ++ "/api/healthCheck/getPing")%string].
Proof.
  exact (master_issues_health_checks cluster_env 10000 eq_refl ltac:(discriminate)).
Defined.

(** X7: the listeners of SIGINT, SIGTERM and 'uncaughtException' are only
    registered by [runExpressServer].  While [__db.init()] is pending the
    process has none: a termination signal ends it at once, without
    [stopGraceFully] and without [__db.close()], and an uncaught fault ends
    it with code 1. *)
Theorem no_listeners_during_startup
        (E : env) (es : list event) (s : signal) (e : js_error) :
  let p := run E es (started E) in
  status p = Running ->
  db_init_pending p = true ->
  listeners p = []
  /\ step E p (EvSignal s) = with_status (Killed s) p
  /\ step E p (EvUncaughtException e) = with_status (Exited 1) p.
Proof.
  intros p Hs Hp.
  assert (Hl : listeners p = []).
  { pose proof (pre_boot E es (started E) Hp) as H. unfold obs_boot in H.
    injection H as _ H _ _. exact H. }
  split; [exact Hl|]. unfold step, uncaught. rewrite Hs, Hl.
  split; reflexivity.
Qed.

Lemma no_listeners_during_startup_witness :
  let p := run single_env [EvIntervalTick 10000; EvProbeSettled (Rejected store_down)]
             (started single_env) in
  listeners p = []
  /\ step single_env p (EvSignal SIGTERM) = with_status (Killed SIGTERM) p
  /\ step single_env p (EvUncaughtException store_down) = with_status (Exited 1) p.
Proof.
  exact (no_listeners_during_startup single_env
           [EvIntervalTick 10000; EvProbeSettled (Rejected store_down)]
           SIGTERM store_down eq_refl eq_refl).
Defined.

(** X8: line 12 reads a missing [clusterNumber] as 0: the process, original
    or not, forks nothing and creates and binds exactly one server, at every
    moment of the run. *)
Theorem missing_worker_count_serves (E : env) (es : list event) :
  clusterNumber E = None ->
  let t := trace (run E es (booted E)) in
  numCPUs E = 0
  /\ count is_fork t = 0%nat
  /\ count is_createServer t = 1%nat
  /\ count is_listen t = 1%nat
  /\ app_server (booted E) = Some (mkServer true 0 [] (Some (SERVER_TIMEOUT E))).
Proof.
  intros HN t.
  assert (Hn : numCPUs E = 0) by (unfold numCPUs; rewrite HN; reflexivity).
  assert (Hf : forks E = false)
    by (unfold forks; rewrite Hn; apply andb_false_r).
  assert (Ht : filter is_boot t = filter is_boot (trace (booted E))).
  { pose proof (obs_boot_reached E es) as H. unfold obs_boot in H.
    injection H as _ _ _ H. exact H. }
  rewrite filter_boot_booted, Hf in Ht.
  assert (Hsrv : app_server (booted E) = the_server E)
    by (rewrite booted_eq; reflexivity).
  rewrite Hsrv. unfold the_server. rewrite Hf.
  rewrite <- (count_filter_imp is_fork is_boot t),
          <- (count_filter_imp is_createServer is_boot t),
          <- (count_filter_imp is_listen is_boot t), Ht
    by (intros []; simpl; intros; try discriminate; reflexivity).
  split; [exact Hn|]. split; [reflexivity|]. split; [reflexivity|].
  split; reflexivity.
Qed.

Lemma missing_worker_count_serves_witness :
  let t := trace (run unconfigured_env [EvConnOpen] (booted unconfigured_env)) in
  numCPUs unconfigured_env = 0
  /\ count is_fork t = 0%nat
  /\ count is_createServer t = 1%nat
  /\ count is_listen t = 1%nat
  /\ app_server (booted unconfigured_env)
     = Some (mkServer true 0 [] (Some (SERVER_TIMEOUT unconfigured_env))).
Proof.
  exact (missing_worker_count_serves unconfigured_env [EvConnOpen] eq_refl).
Defined.

(* ===================================================================== *)
(** ** The schema files of lines 166-170 *)
(* ===================================================================== *)

Lemma string_length_append (a b : string) :
  String.length (a ++ b)%string = (String.length a + String.length b)%nat.
Proof. induction a as [|c a IH]; simpl; auto. Qed.

Lemma substring_all (s : string) : substring 0 (String.length s) s = s.
Proof. induction s as [|c s IH]; simpl; congruence. Qed.

Lemma substring_skip (pre s : string) (m : nat) :
  substring (String.length pre) m (pre ++ s)%string = substring 0 m s.
Proof. induction pre as [|c pre IH]; simpl; auto. Qed.

Lemma substring_split (s : string) : forall k,
  (k <= String.length s)%nat ->
  s = (substring 0 k s ++ substring k (String.length s - k) s)%string.
Proof.
  induction s as [|c s IH]; intros k Hk; simpl in *.
  - destruct k; reflexivity.
  - destruct k as [|k]; simpl.
    + rewrite substring_all. reflexivity.
    + f_equal. apply IH. lia.
Qed.

(** [endsWith] is [String.prototype.endsWith]. *)
Lemma endsWith_spec (s suffix : string) :
  endsWith s suffix = true <-> exists pre, s = (pre ++ suffix)%string.
Proof.
  unfold endsWith. split.
  - destruct (Nat.leb_spec (String.length suffix) (String.length s)) as [Hle|];
      [|discriminate].
    intros H. apply String.eqb_eq in H.
    exists (substring 0 (String.length s - String.length suffix) s).
    remember (String.length s - String.length suffix)%nat as k eqn:Hk.
    remember (String.length suffix) as m eqn:Hm.
    rewrite <- H. replace m with (String.length s - k)%nat by lia.
    apply substring_split. lia.
  - intros [pre ->]. rewrite string_length_append.
    replace (String.length suffix <=? String.length pre + String.length suffix)%nat
      with true by (symmetry; apply Nat.leb_le; lia).
    replace (String.length pre + String.length suffix - String.length suffix)%nat
      with (String.length pre) by lia.
    rewrite substring_skip, substring_all. apply String.eqb_refl.
Qed.

Lemma filter_require_booted E :
  filter is_require (trace (booted E))
  = map Require (filter (fun file => endsWith file ".js") (mongooseSchema E)).
Proof.
  rewrite booted_eq. cbn [trace]. unfold boot_trace.
  rewrite !filter_app.
  assert (Hf : filter is_require (repeat ClusterFork (Z.to_nat (numCPUs E))) = [])
    by (induction (Z.to_nat (numCPUs E)); simpl; auto).
  assert (Hm : forall l, filter is_require (map Require l) = map Require l)
    by (induction l; simpl; congruence).
  rewrite Hm. destruct (forks E); [rewrite Hf|]; reflexivity.
Qed.

(** X9: [runExpressServer] requires the entries of the schema directory
    whose name ends in ".js", each once per entry and in the order of the
    listing, and nothing else: a file is required exactly when it is listed
    and its name is some prefix followed by ".js". *)
Theorem schema_files_required (E : env) (f : string) :
  filter is_require (trace (booted E))
  = map Require (filter (fun file => endsWith file ".js") (mongooseSchema E))
  /\ (In (Require f) (trace (booted E))
      <-> In f (mongooseSchema E) /\ exists pre, f = (pre ++ ".js")%string).
Proof.
  split; [apply filter_require_booted|].
  assert (H : In (Require f) (trace (booted E))
              <-> In (Require f) (filter is_require (trace (booted E)))).
  { rewrite filter_In. simpl. tauto. }
  rewrite H, filter_require_booted, in_map_iff, <- endsWith_spec. split.
  - intros (x & Hx & Hin). injection Hx as ->.
    apply filter_In in Hin. exact Hin.
  - intros Hin. exists f. split; [reflexivity|].
    apply filter_In. exact Hin.
Qed.

(* ===================================================================== *)
(** ** More on shutdown *)
(* ===================================================================== *)

Lemma open_connections E c : forall p sv,
  status p = Running -> app_server p = Some sv -> handle sv = true ->
  run E (repeat EvConnOpen c) p
  = with_app (app_stack p) (Some (set_connections (connections sv + c) sv)) p.
Proof.
  induction c as [|c IH]; intros p sv Hs Hsv Hh; simpl.
  - rewrite Nat.add_0_r. destruct p, sv; simpl in *. subst. reflexivity.
  - assert (Hstep : step E p EvConnOpen
                    = with_app (app_stack p)
                        (Some (set_connections (S (connections sv)) sv)) p)
      by (unfold step; rewrite Hs, Hsv, Hh; reflexivity).
    change (run E (repeat EvConnOpen c) (step E p EvConnOpen)
            = with_app (app_stack p)
                (Some (set_connections (connections sv + S c) sv)) p).
    rewrite Hstep, (IH _ (set_connections (S (connections sv)) sv))
      by (destruct p, sv; simpl in *; auto).
    destruct p, sv; simpl. rewrite Nat.add_succ_r. reflexivity.
Qed.

(** While the listener drains, a connection that ends only lowers the
    count, as long as another one is left. *)
Lemma close_connections E once to k : forall n p,
  status p = Running ->
  app_server p = Some (mkServer false (S (n + k)) once to) ->
  run E (repeat EvConnClose k) p
  = with_app (app_stack p) (Some (mkServer false (S n) once to)) p.
Proof.
  induction k as [|k IH]; intros n p Hs Hsv; simpl.
  - rewrite Nat.add_0_r in Hsv. destruct p; simpl in *. subst. reflexivity.
  - rewrite Nat.add_succ_r in Hsv.
    assert (Hstep : step E p EvConnClose
                    = with_app (app_stack p)
                        (Some (mkServer false (S (n + k)) once to)) p).
    { unfold step. rewrite Hs, Hsv. cbn [connections]. unfold run_callback.
      rewrite (emitCloseIfDrained_spec _ (mkServer false (S (n + k)) once to))
        by (destruct p; reflexivity).
      reflexivity. }
    change (run E (repeat EvConnClose k) (step E p EvConnClose)
            = with_app (app_stack p) (Some (mkServer false (S n) once to)) p).
    rewrite Hstep, (IH n) by (destruct p; simpl in *; auto).
    destruct p; reflexivity.
Qed.

Lemma count_zero_imp (f g : effect -> bool) t :
  (forall e, f e = true -> g e = true) ->
  count g t = 0%nat -> count f t = 0%nat.
Proof.
  intros Hfg. unfold count. induction t as [|e t IH]; simpl; [reflexivity|].
  destruct (g e) eqn:Hg; simpl; [discriminate|].
  destruct (f e) eqn:Hf; [rewrite (Hfg e Hf) in Hg; discriminate|exact IH].
Qed.

Lemma count_shutdown_booted E (f : effect -> bool) :
  (forall e, f e = true -> is_shutdown e = true) ->
  count f (trace (booted E)) = 0%nat.
Proof.
  intros Hf. apply (count_zero_imp f is_shutdown); [exact Hf|].
  rewrite booted_eq. cbn [trace]. unfold boot_trace.
  assert (Hr : forall l, count is_shutdown (map Require l) = 0%nat)
    by (intros l; unfold count; induction l; simpl; auto).
  rewrite !count_app, Hr.
  destruct (forks E); [rewrite count_repeat|]; reflexivity.
Qed.

(** X10: graceful drain.  After a termination signal in a serving process
    with [c + 1] open connections, no further connection is accepted, and
    nothing of the store or of the exit happens while a connection is left;
    when the last one ends, the shutdown callback runs once: [__db.close()]
    is called once, and when it resolves the process exits with code 0. *)
Theorem store_close_waits_for_drain (E : env) (c : nat) (s : signal) :
  forks E = false ->
  let p1 := run E (repeat EvConnOpen (S c) ++ [EvSignal s]) (booted E) in
  step E p1 EvConnOpen = p1
  /\ (forall k, (k <= c)%nat ->
        let q := run E (repeat EvConnClose k) p1 in
        status q = Running
        /\ trace q = trace (booted E) ++ [signal_log s; ServerClose])
  /\ let p2 := run E (repeat EvConnClose (S c)) p1 in
     trace p2 = trace (booted E) ++ [signal_log s; ServerClose; close_log; DbClose]
     /\ count is_dbClose (trace p2) = 1%nat
     /\ db_close_pending p2 = [None]
     /\ let p3 := step E p2 (EvDbCloseSettled 0 Resolved) in
        status p3 = Exited 0
        /\ trace p3 = trace p2 ++ [ConsoleDebug "server is closed"; ProcessExit 0].
Proof.
  intros Hf p1.
  pose proof (count_shutdown_booted E is_dbClose) as Hdb.
  assert (Hp1 : p1 =
    mkProcess Running (the_stack E)
      (Some (mkServer false (S c) [None] (Some (SERVER_TIMEOUT E)))) the_listeners
      false [] 0 (Some POLL_INTERVAL) (Some pollingDuration) []
      (trace (booted E) ++ [signal_log s; ServerClose])).
  { subst p1. rewrite run_app.
    rewrite (open_connections E (S c) (booted E)
               (mkServer true 0 [] (Some (SERVER_TIMEOUT E))))
      by (rewrite ?booted_eq; unfold the_server; rewrite ?Hf; reflexivity).
    cbn [run fold_left].
    rewrite signal_step by (rewrite booted_eq; reflexivity).
    unfold run_callback.
    rewrite (signal_listener_server s _
               (mkServer true (S c) [] (Some (SERVER_TIMEOUT E))))
      by (rewrite booted_eq; reflexivity).
    rewrite booted_eq. reflexivity. }
  assert (Hdb0 : count is_dbClose (trace (booted E)) = 0%nat)
    by (apply Hdb; intros []; simpl; intros; try discriminate; reflexivity).
  clear Hdb. remember (trace (booted E)) as t0 eqn:Ht0. clear Ht0.
  rewrite Hp1. clear Hp1 p1. split; [reflexivity|]. split.
  - intros k Hk q. subst q.
    rewrite (close_connections E [None] (Some (SERVER_TIMEOUT E)) k (c - k))
      by (try reflexivity; cbn [app_server]; do 3 f_equal; lia).
    split; reflexivity.
  - replace (repeat EvConnClose (S c)) with (repeat EvConnClose c ++ [EvConnClose])
      by (rewrite <- (Nat.add_1_r c), repeat_app; reflexivity).
    rewrite run_app.
    rewrite (close_connections E [None] (Some (SERVER_TIMEOUT E)) c 0)
      by reflexivity.
    simpl.
    split; [rewrite <- !app_assoc; reflexivity|]. split.
    { rewrite !count_app, Hdb0. destruct s; reflexivity. }
    split; [reflexivity|]. split; [reflexivity|].
    rewrite <- !app_assoc. reflexivity.
Qed.

Lemma store_close_waits_for_drain_witness :
  let p1 := run single_env (repeat EvConnOpen 3 ++ [EvSignal SIGTERM])
              (booted single_env) in
  step single_env p1 EvConnOpen = p1
  /\ (forall k, (k <= 2)%nat ->
        let q := run single_env (repeat EvConnClose k) p1 in
        status q = Running
        /\ trace q = trace (booted single_env) ++ [signal_log SIGTERM; ServerClose])
  /\ let p2 := run single_env (repeat EvConnClose 3) p1 in
     trace p2 = trace (booted single_env)
                ++ [signal_log SIGTERM; ServerClose; close_log; DbClose]
     /\ count is_dbClose (trace p2) = 1%nat
     /\ db_close_pending p2 = [None]
     /\ let p3 := step single_env p2 (EvDbCloseSettled 0 Resolved) in
        status p3 = Exited 0
        /\ trace p3 = trace p2 ++ [ConsoleDebug "server is closed"; ProcessExit 0].
Proof.
  exact (store_close_waits_for_drain single_env 2 SIGTERM eq_refl).
Defined.

(** X11: two termination signals in a row, in a serving process with
    nothing to drain.  The second call of [server.close] finds the server
    closed, so its callback is given an error.  Both callbacks call
    [__db.close()], and the exit code is that of the callback whose
    [__db.close()] resolves first: 0 for the first signal's, 1 for the
    second's. *)
Theorem double_signal_exit_code (E : env) (s1 s2 : signal) :
  forks E = false ->
  let p := run E [EvSignal s1; EvSignal s2] (booted E) in
  status p = Running
  /\ db_close_pending p = [None; Some ERR_SERVER_NOT_RUNNING]
  /\ count is_dbClose (trace p) = 2%nat
  /\ status (step E p (EvDbCloseSettled 0 Resolved)) = Exited 0
  /\ status (step E p (EvDbCloseSettled 1 Resolved)) = Exited 1.
Proof.
  intros Hf p.
  pose proof (count_shutdown_booted E is_dbClose) as Hdb.
  assert (Hdb0 : count is_dbClose (trace (booted E)) = 0%nat)
    by (apply Hdb; intros []; simpl; intros; try discriminate; reflexivity).
  clear Hdb.
  assert (Hp : p =
    mkProcess Running (the_stack E)
      (Some (mkServer false 0 [] (Some (SERVER_TIMEOUT E)))) the_listeners
      false [None; Some ERR_SERVER_NOT_RUNNING] 0
      (Some POLL_INTERVAL) (Some pollingDuration) []
      (trace (booted E)
       ++ [signal_log s1; ServerClose; close_log; DbClose;
           signal_log s2; ServerClose; close_log; DbClose])).
  { assert (Hp0 : step E (booted E) (EvSignal s1) =
      mkProcess Running (the_stack E)
        (Some (mkServer false 0 [] (Some (SERVER_TIMEOUT E)))) the_listeners
        false [None] 0 (Some POLL_INTERVAL) (Some pollingDuration) []
        (trace (booted E) ++ [signal_log s1; ServerClose; close_log; DbClose])).
    { rewrite signal_step by (rewrite booted_eq; reflexivity).
      unfold run_callback.
      rewrite (signal_listener_server s1 (booted E)
                 (mkServer true 0 [] (Some (SERVER_TIMEOUT E))))
        by (rewrite booted_eq; unfold the_server; rewrite Hf; reflexivity).
      rewrite booted_eq. reflexivity. }
    subst p.
    change (run E [EvSignal s1; EvSignal s2] (booted E))
      with (step E (step E (booted E) (EvSignal s1)) (EvSignal s2)).
    rewrite Hp0. clear Hp0.
    remember (trace (booted E)) as t0 eqn:Ht0. clear Ht0.
    rewrite signal_step by reflexivity. unfold run_callback.
    rewrite (signal_listener_server s2 _
               (mkServer false 0 [] (Some (SERVER_TIMEOUT E))))
      by reflexivity.
    simpl. rewrite <- !app_assoc. reflexivity. }
  remember (trace (booted E)) as t0 eqn:Ht0. clear Ht0.
  rewrite Hp. clear Hp p.
  split; [reflexivity|]. split; [reflexivity|]. split.
  { cbn [trace]. rewrite count_app, Hdb0. destruct s1, s2; reflexivity. }
  split; reflexivity.
Qed.

Lemma double_signal_exit_code_witness :
  let p := run single_env [EvSignal SIGINT; EvSignal SIGINT] (booted single_env) in
  status p = Running
  /\ db_close_pending p = [None; Some ERR_SERVER_NOT_RUNNING]
  /\ count is_dbClose (trace p) = 2%nat
  /\ status (step single_env p (EvDbCloseSettled 0 Resolved)) = Exited 0
  /\ status (step single_env p (EvDbCloseSettled 1 Resolved)) = Exited 1.
Proof.
  exact (double_signal_exit_code single_env SIGINT SIGINT eq_refl).
Defined.

(** Events that leave a quiet process quiet. *)
Lemma quiet_same p p' sv' l :
  status p' = status p -> listeners p' = listeners p ->
  db_init_pending p' = db_init_pending p ->
  db_close_pending p' = db_close_pending p ->
  app_server p' = Some sv' -> handle sv' = true -> close_once sv' = [] ->
  trace p' = trace p ++ l -> count is_shutdown l = 0%nat ->
  quiet p -> quiet p'.
Proof.
  intros H1 H2 H3 H4 H5 H6 H7 H8 H9 (Hs & Hl & Hp & Hd & _ & Hc).
  unfold quiet. rewrite H1, H2, H3, H4, H8, count_app, H9, Hc.
  split; [exact Hs|]. split; [exact Hl|]. split; [exact Hp|]. split; [exact Hd|].
  split; [|reflexivity]. exists sv'. split; [exact H5|]. split; assumption.
Qed.

Ltac quiet_side p :=
  try assumption;
  try solve [destruct p; simpl in *; rewrite ?app_nil_r;
             first [reflexivity | assumption]].

Lemma step_quiet E p ev :
  is_signal_event ev = false -> quiet p -> quiet (step E p ev).
Proof.
  intros Hev Hq.
  pose proof Hq as (Hs & Hl & Hp & Hd & (sv & Hsv & Hh & Ho) & Hc).
  destruct ev; try discriminate.
  - unfold step. rewrite Hs, Hp. exact Hq.
  - unfold step. rewrite Hs, uncaught_logged by exact Hl.
    apply (quiet_same p _ sv [crash_log]); quiet_side p.
  - unfold step. rewrite Hs, Hsv, Hh.
    apply (quiet_same p _ (set_connections (S (connections sv)) sv) []);
      quiet_side p.
  - unfold step. rewrite Hs, Hsv. destruct (connections sv) as [|k]; [exact Hq|].
    unfold run_callback.
    rewrite (emitCloseIfDrained_spec _ (set_connections k sv))
      by (destruct p; reflexivity).
    cbn [set_connections handle]. rewrite Hh. cbn [orb].
    apply (quiet_same p _ (set_connections k sv) []); quiet_side p.
  - unfold step. rewrite Hs, Hsv. destruct (connections sv); [exact Hq|].
    apply (quiet_same p _ sv []); quiet_side p.
  - unfold step. rewrite Hs.
    apply (quiet_same p _ sv []); quiet_side p.
  - unfold step. rewrite Hs. destruct (nth_error (requests p) i); [|exact Hq].
    rewrite on_request_spec by exact Hl.
    destruct (snd _);
      [apply (quiet_same p _ sv [crash_log])|apply (quiet_same p _ sv [])];
      quiet_side p.
  - unfold step. rewrite Hs. destruct (nth_error (requests p) i); [|exact Hq].
    rewrite on_request_spec by exact Hl.
    destruct (snd _);
      [apply (quiet_same p _ sv [crash_log])|apply (quiet_same p _ sv [])];
      quiet_side p.
  - unfold step. rewrite Hs, Hd. destruct k; exact Hq.
  - unfold step. rewrite Hs. destruct (interval p); [|exact Hq].
    destruct (_ && _); [|exact Hq].
    unfold run_callback. rewrite internalHealthCheck_spec.
    eapply (quiet_same p _ sv [AxiosGet _]); quiet_side p.
  - unfold step. rewrite Hs. destruct (poll_timeout p); [|exact Hq].
    destruct (_ && _); [|exact Hq].
    apply (quiet_same p _ sv
             [ClearInterval; ConsoleLog "Stopped polling after 5 minutes."]);
      quiet_side p.
    destruct p; unfold run_callback, stop_polling; js_eval;
      rewrite <- app_assoc; reflexivity.
  - rewrite probe_settled_step by exact Hs.
    destruct (probes_pending p); [exact Hq|].
    eapply (quiet_same p _ sv [_]); quiet_side p; destruct o; reflexivity.
Qed.

Lemma booted_quiet E : forks E = false -> quiet (booted E).
Proof.
  intros Hf. unfold quiet.
  rewrite (count_shutdown_booted E is_shutdown) by auto.
  rewrite booted_eq. unfold the_server. rewrite Hf.
  cbn [status listeners db_init_pending db_close_pending app_server].
  split; [reflexivity|]. split; [reflexivity|]. split; [reflexivity|].
  split; [reflexivity|]. split; [|reflexivity].
  eexists. split; [reflexivity|]. split; reflexivity.
Qed.

Lemma run_quiet E es : forall p,
  signals_in es = 0%nat -> quiet p -> quiet (run E es p).
Proof.
  induction es as [|ev es IH]; intros p Hes Hq; [exact Hq|].
  unfold signals_in in Hes. simpl in Hes.
  destruct (is_signal_event ev) eqn:Hev; [discriminate|].
  change (quiet (run E es (step E p ev))).
  apply IH; [exact Hes|apply step_quiet; assumption].
Qed.

(** X12: a serving process shuts down on a termination signal only.
    Whatever else happens (requests, socket timeouts, uncaught faults,
    failed health checks, timers, connections coming and going), as long as
    no SIGINT or SIGTERM arrives the process keeps running and listening,
    and it neither calls [server.close] nor [__db.close()] nor
    [process.exit]. *)
Theorem no_shutdown_without_signal (E : env) (es : list event) :
  forks E = false ->
  signals_in es = 0%nat ->
  let p := run E es (booted E) in
  status p = Running
  /\ (exists sv, app_server p = Some sv /\ handle sv = true)
  /\ count is_serverClose (trace p) = 0%nat
  /\ count is_dbClose (trace p) = 0%nat
  /\ count is_exit (trace p) = 0%nat.
Proof.
  intros Hf Hes p.
  pose proof (run_quiet E es (booted E) Hes (booted_quiet E Hf))
    as (Hs & _ & _ & _ & (sv & Hsv & Hh & _) & Hc).
  fold p in Hs, Hsv, Hc.
  split; [exact Hs|]. split; [exists sv; split; assumption|].
  split; [|split];
    apply (count_zero_imp _ is_shutdown); try exact Hc;
    intros []; simpl; intros; try discriminate; reflexivity.
Qed.

Lemma no_shutdown_without_signal_witness :
  let p := run single_env
             [EvConnOpen; EvRequest (mkRequest "GET" "/slow" NoBody);
              EvSocketTimeout 0; EvUncaughtException store_down;
              EvIntervalTick 10000; EvProbeSettled (Rejected store_down);
              EvDbCloseSettled 0 Resolved; EvConnClose]
             (booted single_env) in
  status p = Running
  /\ (exists sv, app_server p = Some sv /\ handle sv = true)
  /\ count is_serverClose (trace p) = 0%nat
  /\ count is_dbClose (trace p) = 0%nat
  /\ count is_exit (trace p) = 0%nat.
Proof.
  exact (no_shutdown_without_signal single_env
           [EvConnOpen; EvRequest (mkRequest "GET" "/slow" NoBody);
            EvSocketTimeout 0; EvUncaughtException store_down;
            EvIntervalTick 10000; EvProbeSettled (Rejected store_down);
            EvDbCloseSettled 0 Resolved; EvConnClose]
           eq_refl eq_refl).
Defined.


(* ===================================================================== *)
(** ** Business routes and the catch-all *)
(* ===================================================================== *)

(** X13: when the first matching business route answers, its answer is the
    only one the caller receives, also when the route calls [next()] after
    answering: whatever runs afterwards, the catch-all of line 113 included,
    cannot answer any more.  A route that answers without calling [next()]
    is the only route that runs. *)
Theorem route_answer_is_final (E : env) (r : request) (rt : route) (b : string) :
  req_body r <> JsonMalformed ->
  req_method r <> "OPTIONS" ->
  find (fun rt => route_match rt r) (routes E) = Some rt ->
  route_handler rt r = Respond b \/ route_handler rt r = RespondNext b ->
  let c := handle_request (app_stack (booted E)) r in
  writes (ctx_log c) = [HandlerResponse b]
  /\ count_type RESPONSE_MESSAGES.NOT_FOUND c = 0%nat
  /\ (route_handler rt r = Respond b -> routes_run (ctx_log c) = [route_name rt]).
Proof.
  intros Hb Hm Hf Hh. rewrite app_stack_booted. intros c. subst c.
  assert (Hcount : forall c, writes (ctx_log c) = [HandlerResponse b] ->
                             count_type RESPONSE_MESSAGES.NOT_FOUND c = 0%nat)
    by (intros c Hc; unfold count_type; rewrite Hc; reflexivity).
  apply handle_request_routed_cases; try assumption; unfold routing.
  - rewrite (routing_first_match (routes E) (new_ctx r) rt (live_new r) Hf).
    cbv zeta. cbn [ctx_req new_ctx]. destruct Hh as [Hh|Hh]; rewrite Hh.
    + split; [reflexivity|]. split; [reflexivity|]. intros _. reflexivity.
    + assert (Hw : writes (ctx_log (req_on_timeout (walk_ctx
                     (run_stack (map Route (rest_after r (routes E)) ++ [CatchAll])
                        None
                        (record (Write (HandlerResponse b))
                           (record (RunRoute (route_name rt))
                                   (mkCtx r false false 0 [])))))))
                   = [HandlerResponse b]).
      { rewrite writes_on_timeout.
        rewrite answered_no_more_writes by apply headersSent_write.
        reflexivity. }
      split; [exact Hw|]. split; [apply Hcount, Hw|]. intros Habs. discriminate.
  - rewrite (routing_first_match (routes E) (req_on_timeout (new_ctx r)) rt
               (live_on_timeout _ (live_new r)) Hf).
    cbv zeta. replace (ctx_req (req_on_timeout (new_ctx r))) with r by reflexivity.
    destruct Hh as [Hh|Hh]; rewrite Hh.
    + split; [reflexivity|]. split; [reflexivity|]. intros _. reflexivity.
    + assert (Hw : writes (ctx_log (walk_ctx
                     (run_stack (map Route (rest_after r (routes E)) ++ [CatchAll])
                        None
                        (record (Write (HandlerResponse b))
                           (record (RunRoute (route_name rt))
                                   (req_on_timeout (new_ctx r)))))))
                   = [HandlerResponse b]).
      { rewrite answered_no_more_writes by apply headersSent_write.
        reflexivity. }
      split; [exact Hw|]. split; [apply Hcount, Hw|]. intros Habs. discriminate.
Qed.

Lemma route_answer_is_final_witness :
  let c := handle_request (app_stack (booted echo_env))
             (mkRequest "POST" "/echo" JsonWellFormed) in
  writes (ctx_log c) = [HandlerResponse "echo"]
  /\ count_type RESPONSE_MESSAGES.NOT_FOUND c = 0%nat
  /\ (route_handler echo_route (mkRequest "POST" "/echo" JsonWellFormed)
      = Respond "echo" ->
      routes_run (ctx_log c) = [route_name echo_route]).
Proof.
  exact (route_answer_is_final echo_env
           (mkRequest "POST" "/echo" JsonWellFormed) echo_route "echo"
           ltac:(discriminate) ltac:(discriminate) eq_refl (or_intror eq_refl)).
Defined.

(** X14: a business route that matches but hands over with [next()]
    without answering does not settle the request: when no later route
    matches, the catch-all answers NOT_FOUND although a registered route
    matched and ran. *)
Theorem route_calling_next_falls_through (E : env) (r : request) (rt : route) :
  req_body r <> JsonMalformed ->
  req_method r <> "OPTIONS" ->
  find (fun rt => route_match rt r) (routes E) = Some rt ->
  route_handler rt r = CallNext ->
  find (fun rt => route_match rt r) (rest_after r (routes E)) = None ->
  let c := handle_request (app_stack (booted E)) r in
  writes (ctx_log c) = [SendJson not_found_payload]
  /\ routes_run (ctx_log c) = [route_name rt]
  /\ count_type RESPONSE_MESSAGES.NOT_FOUND c = 1%nat.
Proof.
  intros Hb Hm Hf Hh Hr. rewrite app_stack_booted. intros c. subst c.
  apply handle_request_routed_cases; try assumption; unfold routing.
  - rewrite (routing_first_match (routes E) (new_ctx r) rt (live_new r) Hf).
    cbv zeta. cbn [ctx_req new_ctx]. rewrite Hh.
    rewrite routing_unmatched;
      [|apply live_record; [apply live_new|exact I]|exact Hr].
    split; [reflexivity|]. split; reflexivity.
  - rewrite (routing_first_match (routes E) (req_on_timeout (new_ctx r)) rt
               (live_on_timeout _ (live_new r)) Hf).
    cbv zeta. replace (ctx_req (req_on_timeout (new_ctx r))) with r by reflexivity.
    rewrite Hh.
    rewrite routing_unmatched;
      [|apply live_record; [apply live_on_timeout, live_new|exact I]|exact Hr].
    split; [reflexivity|]. split; reflexivity.
Qed.

Lemma route_calling_next_falls_through_witness :
  let c := handle_request (app_stack (booted passing_env))
             (mkRequest "GET" "/audit" NoBody) in
  writes (ctx_log c) = [SendJson not_found_payload]
  /\ routes_run (ctx_log c) = [route_name passing_route]
  /\ count_type RESPONSE_MESSAGES.NOT_FOUND c = 1%nat.
Proof.
  exact (route_calling_next_falls_through passing_env
           (mkRequest "GET" "/audit" NoBody) passing_route
           ltac:(discriminate) ltac:(discriminate) eq_refl eq_refl eq_refl).
Defined.
